(** * Benthic carbon-flux graphs (benthic_ERSEM_L4_BECS.ipynb)

    A shallow embedding of the notebook's flux-table construction, year
    filter, maximum-flux identification and edge-styling loop, and the
    properties of the written specification that concern them.

    Number model.  The notebook computes on NumPy/pandas floating-point
    values.  For the flux table and the styling loop a finite float is an
    exact rational ([Q]): sums, products and quotients are exact, rounding
    is not modelled, and neither are the special values (NaN, the
    infinities, signed zero).  [x / maxwidth] is therefore only meaningful
    at a non-zero divisor, and every statement about a scaled width assumes
    a positive maximum, as the specification does.  Equality of numbers is
    [Qeq] ([==]) unless a statement says otherwise.

    One property turns on rounding itself (whether [M * (10 / M)] is 10
    again).  For it the width expression is given a second time over IEEE
    binary formats, with the library's executable [spec_float] operations
    (module [IEEE]). *)

From Stdlib Require Import List String Ascii Bool Arith ZArith QArith Qminmax Lia Lqa.
From Stdlib Require Import SpecFloat.
Import ListNotations.

Open Scope string_scope.
Open Scope Q_scope.

(** ** Exceptions and the result monad *)

Module Py.

(** The Python exceptions the embedded statements can raise. *)
Inductive exn : Type :=
| KeyError (key : string)        (* Series/DataFrame label lookup *)
| AttributeError (name : string) (* attribute access on the dataset or the frame *)
| ValueError.                    (* ambiguous truth value, length mismatch, item() *)

Inductive Res (A : Type) : Type :=
| Ok (a : A)
| Raise (e : exn).

Arguments Ok {A} a.
Arguments Raise {A} e.

Definition bind {A B} (r : Res A) (k : A -> Res B) : Res B :=
  match r with
  | Ok a => k a
  | Raise e => Raise e
  end.

Definition raises {A} (r : Res A) : Prop := exists e, r = Raise e.

Definition returns {A} (r : Res A) : Prop := exists a, r = Ok a.

End Py.

Import Py.

Notation "x <- c ;; k" := (bind c (fun x => k))
  (at level 61, c at next level, right associativity).

(** ** String slices

    [s[0:n]] and [s[n:]] on a Python [str]: slicing clips at the end of the
    string and never raises. *)

Fixpoint str_take (n : nat) (s : string) : string :=
  match n, s with
  | S n', String c s' => String c (str_take n' s')
  | _, _ => EmptyString
  end.

Fixpoint str_drop (n : nat) (s : string) : string :=
  match n, s with
  | S n', String _ s' => str_drop n' s'
  | _, _ => s
  end.

(** [s[lo:hi]] for [0 <= lo <= hi]. *)
Definition slice (lo hi : nat) (s : string) : string :=
  str_take (hi - lo) (str_drop lo s).

(** [s[lo:]] for [0 <= lo]. *)
Definition slice_from (lo : nat) (s : string) : string := str_drop lo s.

(** [flo=fl[0:2];fli=fl[2:]] *)
Definition split_code (fl : string) : string * string :=
  (slice 0 2 fl, slice_from 2 fl).

(** ** Series

    A pandas [Series] of floats with string labels, in label order (the
    order of the frame's columns it was reduced from). *)

Definition Series := list (string * Q).

Fixpoint series_get (s : Series) (k : string) : Res Q :=
  match s with
  | [] => Raise (KeyError k)
  | (k', v) :: s' => if String.eqb k' k then Ok v else series_get s' k
  end.

Definition values (s : Series) : list Q := map snd s.

(** [Qle_bool]/[Qeq_bool] are in the library; the strict test is written
    from the definition of [<] on fractions. *)
Definition Qlt_bool (a b : Q) : bool :=
  (Qnum a * QDen b <? Qnum b * QDen a)%Z.

(** [s.max()]: [None] stands for the NaN that pandas returns on an empty
    series. *)
Fixpoint series_max (s : Series) : option Q :=
  match s with
  | [] => None
  | (_, v) :: s' =>
      match series_max s' with
      | None => Some v
      | Some m => Some (if Qlt_bool v m then m else v)
      end
  end.

(** [maxw = dfm[dfm==dfm.max()]]: the entries equal to the maximum, in
    label order. *)
Definition max_entries (dfm : Series) : Series :=
  match series_max dfm with
  | None => []
  | Some m => filter (fun kv => Qeq_bool (snd kv) m) dfm
  end.

(** ** Python values met in the styling loop

    [nnvalue] is either a Python float or a one-dimensional NumPy array. *)

Inductive pyval : Type :=
| PyFloat (q : Q)
| NdArray (a : list Q).

(** Truth value of a boolean array: defined for exactly one element.  On
    two or more elements NumPy raises [ValueError] (ambiguous truth value);
    the empty array is rejected likewise (recent NumPy; older releases only
    warned). *)
Definition truth (bs : list bool) : Res bool :=
  match bs with
  | [b] => Ok b
  | _ => Raise ValueError
  end.

(** [b < a] and [b > a] for a Python float [a] and a value [b], as a truth
    value. *)
Definition py_lt (b : pyval) (a : Q) : Res bool :=
  match b with
  | PyFloat q => Ok (Qlt_bool q a)
  | NdArray xs => truth (map (fun x => Qlt_bool x a) xs)
  end.

Definition py_gt (b : pyval) (a : Q) : Res bool :=
  match b with
  | PyFloat q => Ok (Qlt_bool a q)
  | NdArray xs => truth (map (fun x => Qlt_bool a x) xs)
  end.

(** The builtins [min(a, b)] and [max(a, b)] with a float first argument:
    the second argument replaces the first when it is strictly smaller
    (larger). *)
Definition py_min (a : Q) (b : pyval) : Res pyval :=
  c <- py_lt b a ;; Ok (if c then b else PyFloat a).

Definition py_max (a : Q) (b : pyval) : Res pyval :=
  c <- py_gt b a ;; Ok (if c then b else PyFloat a).

(** [if hasattr(nnvalue, 'ndim') and nnvalue.ndim > 0: nnvalue = nnvalue.item()]
    followed by [float(nnvalue)]. *)
Definition to_scalar (v : pyval) : Res Q :=
  match v with
  | PyFloat q => Ok q
  | NdArray [x] => Ok x
  | NdArray _ => Raise ValueError
  end.

(** ** Graph renderer: the edge loop

    The loop body is the same in the detailed and in the simplified
    pipeline; only the mean-flux series ([dfm] / [rfm]), [maxwidth] and the
    list [fluxes] differ. *)

Module Renderer.

(** An edge as handed to [Digraph.edge]; [penwidth] is the number whose
    [str(float(.))] the notebook passes on. *)
Record edge : Type := mkEdge {
  tail : string;
  head : string;
  penwidth : Q;
  color : string
}.

Definition minsize : Q := 5 # 10.

Definition x : Q := 10.

Definition blue : string := "#0066CC".
Definition red : string := "#CC0000".
Definition dark : string := "#000000B0".

(** [nvalue = value * (x / maxwidth)], element-wise over the array
    [maxwidth]. *)
Definition scaled (value : Q) (maxwidth : list Q) : list Q :=
  map (fun m => value * (x / m)) maxwidth.

(** [max(0.5, min(10., nvalue))] *)
Definition clip (nvalue : list Q) : Res pyval :=
  m <- py_min 10 (NdArray nvalue) ;; py_max (5 # 10) m.

(** The [if]/[elif]/[else] of the loop body: colour and [nnvalue]. *)
Definition style (dfm : Series) (fl : string) (nvalue : list Q)
  : Res (string * pyval) :=
  v <- series_get dfm fl ;;
  if Qlt_bool v (1 # 100000) then Ok (blue, PyFloat (5 # 10))
  else
    v' <- series_get dfm fl ;;
    if Qlt_bool v' (2 # 10) then Ok (red, PyFloat (5 # 10))
    else nn <- clip nvalue ;; Ok (dark, nn).

(** One iteration of [for fl in fluxes]. *)
Definition edge_step (dfm : Series) (maxwidth : list Q) (fl : string)
  : Res edge :=
  let (flo, fli) := split_code fl in
  value <- series_get dfm fl ;;
  let nvalue := scaled value maxwidth in
  cn <- style dfm fl nvalue ;;
  w <- to_scalar (snd cn) ;;
  Ok (mkEdge flo fli w (fst cn)).

(** The whole loop: the edges added to the graph, in order; the first
    exception aborts it. *)
Fixpoint render (dfm : Series) (maxwidth : list Q) (fluxes : list string)
  : Res (list edge) :=
  match fluxes with
  | [] => Ok []
  | fl :: rest =>
      e <- edge_step dfm maxwidth fl ;;
      es <- render dfm maxwidth rest ;;
      Ok (e :: es)
  end.

(** [maxwidth = maxw.values] and the loop, from the mean-flux series. *)
Definition draw (dfm : Series) (fluxes : list string) : Res (list edge) :=
  render dfm (values (max_entries dfm)) fluxes.

Definition fluxes_detailed : list string :=
  ["P2Q1";"P3Q1";"P1Q1";"P1Q6";"P1Q7";"P2Q6";"P2Q7";"P3Q6";"P3Q7";"R4Q6";
   "R4Q7";"R6Q6";"R6Q7";"R8Q6";"R8Q7";
   "Q6R6";"Q1H1";"Q6H1";"Q7H1";"H1G3";"H1Q1";"H1Q6";"Q6H2";"Q7H2";
   "H2G3";"H2Q6";"H1Y2";"H2Y2";"Q6Y2";"Y4Y2";"Y2G3";"Y2Q6";
   "P1Y3";"P2Y3";"P3Y3";"R6Y3";"H1Y3";"Q6Y3";"Y3G3";"Y3Q6";
   "H1Y4";"H2Y4";"Y4Y4";"Q6Y4";"Y4G3";"Y4Q6"].

Definition fluxes_simplified : list string :=
  ["P3Q6";"P3Q7";"P2Q1";"P3Q1";"P1Q1";"P1Q6";"P1Q7";"R4Q6";"R4Q7";"R6Q6";
   "R6Q7";"R8Q6";"R8Q7";
   "Q6R6";"Q1G3";"Q6G3";"Q7G3"].

End Renderer.

(** ** The width expression in IEEE arithmetic

    [max(0.5, min(10., value * (x / maxwidth)))] for a one-element
    [maxwidth], in the binary format with precision [prec] and exponent
    bound [emax] (24 and 128 for the [float32] the notebook's dataset holds,
    53 and 1024 for [float64]).  The literals 10 and 0.5 are exact in both
    formats, so the comparisons against the Python floats happen in the
    array's format. *)

Module IEEE.

Section Format.

Variables prec emax : Z.

(** The number [m * 2^e], rounded into the format. *)
Definition lit (m e : Z) : spec_float := binary_normalize prec emax m e false.

Definition ten : spec_float := lit 10 0.
Definition half : spec_float := lit 1 (-1).

(** [nvalue = value * (x / maxwidth)] *)
Definition scaled (value maxwidth : spec_float) : spec_float :=
  SFmul prec emax value (SFdiv prec emax ten maxwidth).

(** [min(a, b)] and [max(a, b)]: [b] replaces [a] when strictly smaller
    (larger); a NaN never does. *)
Definition py_min (a b : spec_float) : spec_float := if SFltb b a then b else a.
Definition py_max (a b : spec_float) : spec_float := if SFltb a b then b else a.

(** [max(0.5, min(10., nvalue))] *)
Definition clip (nvalue : spec_float) : spec_float :=
  py_max half (py_min ten nvalue).

End Format.

End IEEE.

(** ** The classification as the specification words it

    [classify] follows the specification's three tiers and its
    [clamp(v * (10 / MaxMeanFlux), 0.5, 10.0)]; it is compared with the
    loop body below, not used by it. *)

Inductive tier : Type := Negligible | Minor | Significant.

Definition clamp (v lo hi : Q) : Q := Qmax lo (Qmin hi v).

Definition classify_tier (v : Q) : tier :=
  if Qlt_bool v (1 # 100000) then Negligible
  else if Qlt_bool v (2 # 10) then Minor
  else Significant.

Definition tier_color (t : tier) : string :=
  match t with
  | Negligible => Renderer.blue
  | Minor => Renderer.red
  | Significant => Renderer.dark
  end.

Definition tier_width (t : tier) (v maxMeanFlux : Q) : Q :=
  match t with
  | Negligible => 5 # 10
  | Minor => 5 # 10
  | Significant => clamp (v * (10 / maxMeanFlux)) (5 # 10) 10
  end.

(** Closed form of one loop iteration when [maxwidth] holds the single
    value [M]: the width and the colour the body arrives at for the mean
    flux [v] (see [edge_step_single]). *)

Definition step_width (v M : Q) : Q :=
  if Qlt_bool v (1 # 100000) then 5 # 10
  else if Qlt_bool v (2 # 10) then 5 # 10
  else let nv := v * (Renderer.x / M) in
       if Qlt_bool nv 10 then (if Qlt_bool (5 # 10) nv then nv else 5 # 10) else 10.

Definition step_color (v : Q) : string :=
  if Qlt_bool v (1 # 100000) then Renderer.blue
  else if Qlt_bool v (2 # 10) then Renderer.red else Renderer.dark.


(** ** Tables

    A pandas [DataFrame] with a [DatetimeIndex]: the index and the columns in
    insertion order, each column as long as the index. *)

Record Timestamp : Type := mkTimestamp {
  year : Z;
  month : Z;
  day : Z;
  nanosecond_of_day : Z
}.

Record DataFrame : Type := mkFrame {
  index : list Timestamp;
  columns : list (string * list Q)
}.

(** The opened dataset: the shared time coordinate and the named variables
    after [.values.squeeze()]. *)
Record Dataset : Type := mkDataset {
  time : list Timestamp;
  variables : list (string * list Q)
}.

Fixpoint lookup (k : string) (l : list (string * list Q)) : option (list Q) :=
  match l with
  | [] => None
  | (k', v) :: l' => if String.eqb k' k then Some v else lookup k l'
  end.

(** [xd.NAME.values.squeeze()] *)
Definition xd_var (xd : Dataset) (name : string) : Res (list Q) :=
  match lookup name (variables xd) with
  | Some a => Ok a
  | None => Raise (AttributeError name)
  end.

(** [df.NAME] *)
Definition df_col (df : DataFrame) (name : string) : Res (list Q) :=
  match lookup name (columns df) with
  | Some a => Ok a
  | None => Raise (AttributeError name)
  end.

(** A column is replaced in place when the label exists and appended
    otherwise. *)
Fixpoint put (k : string) (v : list Q) (l : list (string * list Q))
  : list (string * list Q) :=
  match l with
  | [] => [(k, v)]
  | (k', v') :: l' =>
      if String.eqb k' k then (k, v) :: l' else (k', v') :: put k v l'
  end.

(** [df[k] = a]: the array must be as long as the index. *)
Definition df_set (df : DataFrame) (k : string) (a : list Q) : Res DataFrame :=
  if Nat.eqb (List.length a) (List.length (index df))
  then Ok (mkFrame (index df) (put k a (columns df)))
  else Raise ValueError.

(** Element-wise [a + b] of two one-dimensional operands; operands of
    different lengths do not combine. *)
Fixpoint zip_add (a b : list Q) : list Q :=
  match a, b with
  | u :: a', v :: b' => (u + v) :: zip_add a' b'
  | _, _ => []
  end.

Definition ew_add (a b : list Q) : Res (list Q) :=
  if Nat.eqb (List.length a) (List.length b) then Ok (zip_add a b) else Raise ValueError.

(** [df.A + df.B + ...], left to right, starting from [acc]. *)
Fixpoint sum_cols (df : DataFrame) (acc : list Q) (names : list string)
  : Res (list Q) :=
  match names with
  | [] => Ok acc
  | n :: rest =>
      c <- df_col df n ;;
      acc' <- ew_add acc c ;;
      sum_cols df acc' rest
  end.

(** ** Flux table builder

    The builder cells are straight-line assignments of two shapes. *)

Inductive stmt : Type :=
| Copy (code var : string)
    (* df[code] = xd.var.values.squeeze() *)
| Return (code var loss : string) (k1 k2 : Q) (prey0 : string) (preys : list string).
    (* df[code] = xd.var.values.squeeze() + df.loss*k1 + k2*(df.prey0 + df.preys...) *)

Definition stmt_code (s : stmt) : string :=
  match s with
  | Copy code _ => code
  | Return code _ _ _ _ _ _ => code
  end.

Definition exec (xd : Dataset) (df : DataFrame) (s : stmt) : Res DataFrame :=
  match s with
  | Copy code var =>
      a <- xd_var xd var ;;
      df_set df code a
  | Return code var loss k1 k2 prey0 preys =>
      raw <- xd_var xd var ;;
      l <- df_col df loss ;;
      t1 <- ew_add raw (map (fun v => v * k1) l) ;;
      p0 <- df_col df prey0 ;;
      ps <- sum_cols df p0 preys ;;
      t2 <- ew_add t1 (map (fun v => k2 * v) ps) ;;
      df_set df code t2
  end.

Fixpoint run (xd : Dataset) (df : DataFrame) (prog : list stmt) : Res DataFrame :=
  match prog with
  | [] => Ok df
  | s :: rest => df' <- exec xd df s ;; run xd df' rest
  end.

(** [pd.DataFrame(index=xd.VAR.time.values)] *)
Definition new_frame (xd : Dataset) (var : string) : Res DataFrame :=
  _ <- xd_var xd var ;; Ok (mkFrame (time xd) []).

Definition deposition : list stmt :=
  [ Copy "R4Q6" "R4_dep1c"; Copy "R4Q7" "R4_dep2c";
    Copy "R6Q6" "R6_dep1c"; Copy "R6Q7" "R6_dep2c";
    Copy "R8Q6" "R8_dep1c"; Copy "R8Q7" "R8_dep2c";
    Copy "P1Q6" "P1_dep1c"; Copy "P1Q1" "P1_dep2c"; Copy "P1Q7" "P1_dep3c";
    Copy "P2Q6" "P2_dep1c"; Copy "P2Q1" "P2_dep2c"; Copy "P2Q7" "P2_dep3c";
    Copy "P3Q6" "P3_dep1c"; Copy "P3Q1" "P3_dep2c"; Copy "P3Q7" "P3_dep3c";
    Copy "P4Q6" "P4_dep1c"; Copy "P4Q1" "P4_dep2c"; Copy "P4Q7" "P4_dep3c" ].

Definition bacteria : list stmt :=
  [ Copy "Q6R6" "Q6_resuspension_flux_c";
    Copy "Q1H1" "H1_fc1"; Copy "Q6H1" "H1_fc2"; Copy "Q7H1" "H1_fc3";
    Copy "H1G3" "H1_fHG3c"; Copy "H1Q1" "H1_fHQ1c"; Copy "H1Q6" "H1_fHQPc";
    Copy "Q6H2" "H2_fc1"; Copy "Q7H2" "H2_fc2";
    Copy "H2G3" "H2_fHG3c"; Copy "H2Q6" "H2_fHQPc" ].

Definition deposit_feeder_prey : list stmt :=
  [ Copy "H1Y2" "Y2_fprey1c"; Copy "H2Y2" "Y2_fprey2c";
    Copy "Q6Y2" "Y2_fprey3c"; Copy "Y4Y2" "Y2_fprey4c";
    Copy "Y2G3" "Y2_fYG3c" ].

Definition deposit_feeder_return : stmt :=
  Return "Y2Q6" "Y2_fYQPc" "Q6Y2" (8 # 10) (35 # 100) "H1Y2" ["H2Y2"; "Y4Y2"].

Definition fauna_rest : list stmt :=
  [ Copy "P1Y3" "Y3_fprey1c"; Copy "P2Y3" "Y3_fprey2c";
    Copy "P3Y3" "Y3_fprey3c"; Copy "R6Y3" "Y3_fprey4c";
    Copy "H1Y3" "Y3_fprey5c"; Copy "Q6Y3" "Y3_fprey6c";
    Copy "Y3G3" "Y3_fYG3c";
    Return "Y3Q6" "Y3_fYQPc" "Q6Y3" (85 # 100) (35 # 100)
           "P1Y3" ["P2Y3"; "P3Y3"; "R6Y3"; "H1Y3"];
    Copy "H1Y4" "Y4_fprey1c"; Copy "H2Y4" "Y4_fprey2c";
    Copy "Y4Y4" "Y4_fprey3c"; Copy "Q6Y4" "Y4_fprey4c";
    Copy "Y4G3" "Y4_fYG3c";
    Return "Y4Q6" "Y4_fYQPc" "Q6Y4" (4 # 10) (25 # 100)
           "Y4Y4" ["H1Y4"; "H2Y4"] ].

(** The detailed variant's flux-table cells, in order. *)
Definition detailed_flux_cells : list stmt :=
  deposition ++ bacteria ++ deposit_feeder_prey
  ++ deposit_feeder_return :: fauna_rest.

Definition build_detailed (xd : Dataset) : Res DataFrame :=
  df <- new_frame xd "Y2_fYG3c" ;;
  run xd df detailed_flux_cells.

(** The simplified variant's flux-table cell. *)
Definition simplified_flux_cells : list stmt :=
  deposition ++
  [ Copy "Q6G3" "Q6_bremin"; Copy "Q7G3" "Q7_bremin"; Copy "Q1G3" "Q1_bremin";
    Copy "Q6R6" "Q6_resuspension_flux_c" ].

Definition build_simplified (xe : Dataset) : Res DataFrame :=
  rf <- new_frame xe "Q6_c" ;;
  run xe rf simplified_flux_cells.

(** ** Temporal reducer: the year filter

    [df[df.index.year==2016]]: boolean-mask selection of rows. *)

Fixpoint select {A : Type} (mask : list bool) (xs : list A) : list A :=
  match mask, xs with
  | b :: mask', v :: xs' => if b then v :: select mask' xs' else select mask' xs'
  | _, _ => []
  end.

Definition year_mask (y : Z) (idx : list Timestamp) : list bool :=
  map (fun t => Z.eqb (year t) y) idx.

Definition filter_year (y : Z) (df : DataFrame) : DataFrame :=
  let mask := year_mask y (index df) in
  mkFrame (select mask (index df))
          (map (fun kc => (fst kc, select mask (snd kc))) (columns df)).

Definition target_year : Z := 2016.

(** The first two lines of the reducer cell, on the flux and the stock
    table; boolean-mask selection raises nothing. *)
Definition filter_tables (y : Z) (df dv : DataFrame) : Res (DataFrame * DataFrame) :=
  Ok (filter_year y df, filter_year y dv).

(** Each column is as long as the index. *)
Definition well_formed (df : DataFrame) : Prop :=
  Forall (fun kc => List.length (snd kc) = List.length (index df)) (columns df).

Definition rows_in_year (y : Z) (df : DataFrame) : nat :=
  List.length (filter (fun t => Z.eqb (year t) y) (index df)).

(** ** Reading the builder cells

    Which dataset variable a statement reads, which columns of the frame it
    reads, and whether a cell leaves a given column alone or reads only
    columns assigned before (the order the specification asks for). *)

Definition stmt_var (s : stmt) : string :=
  match s with
  | Copy _ var => var
  | Return _ var _ _ _ _ _ => var
  end.

Definition stmt_reads (s : stmt) : list string :=
  match s with
  | Copy _ _ => []
  | Return _ _ loss _ _ prey0 preys => loss :: prey0 :: preys
  end.

Definition writes_elsewhere (k : string) (prog : list stmt) : bool :=
  forallb (fun s => negb (String.eqb (stmt_code s) k)) prog.

Fixpoint ready (present : list string) (prog : list stmt) : bool :=
  match prog with
  | [] => true
  | s :: rest =>
      forallb (fun c => existsb (String.eqb c) present) (stmt_reads s)
      && ready (stmt_code s :: present) rest
  end.

(** The listed columns exist and are as long as the index. *)
Definition cols_ok (present : list string) (df : DataFrame) : Prop :=
  forall c, In c present ->
    exists a, df_col df c = Ok a /\ List.length a = List.length (index df).

(** A two-step dataset for the examples: every variable the detailed cells
    read is present, the deposit feeder's with values of its own. *)
Definition sample_series (var : string) : list Q :=
  if String.eqb var "Y2_fYQPc" then [1; 2]
  else if String.eqb var "Y2_fprey3c" then [10; 20]
  else if String.eqb var "Y2_fprey1c" then [100; 200]
  else if String.eqb var "Y2_fprey2c" then [1000; 2000]
  else if String.eqb var "Y2_fprey4c" then [10000; 20000]
  else [1 # 2; 1 # 4].

Definition sample_dataset : Dataset :=
  mkDataset [mkTimestamp 2016 1 1 0; mkTimestamp 2016 1 2 0]
            (map (fun s => (stmt_var s, sample_series (stmt_var s)))
                 detailed_flux_cells).

(** ** The other tables

    A table is built from an empty frame on the time coordinate of one
    dataset variable, then filled by its cells.  [build_detailed] and
    [build_simplified] are instances ([build_detailed_unfold]). *)

Definition build (frame_var : string) (cells : list stmt) (xd : Dataset)
  : Res DataFrame :=
  df <- new_frame xd frame_var ;;
  run xd df cells.

(** The detailed variant's stock cell ([dv]). *)
Definition detailed_stock_cells : list stmt :=
  [ Copy "Q1" "Q1_c"; Copy "Q6" "Q6_c"; Copy "Q7" "Q7_c";
    Copy "H1" "H1_c"; Copy "H2" "H2_c";
    Copy "Y2" "Y2_c"; Copy "Y3" "Y3_c"; Copy "Y4" "Y4_c";
    Copy "G3" "G3_c" ].

Definition build_stock_detailed (xd : Dataset) : Res DataFrame :=
  build "Y2_fYG3c" detailed_stock_cells xd.

(** The simplified variant's stock statements ([rv]). *)
Definition simplified_stock_cells : list stmt :=
  [ Copy "Q1" "Q1_c"; Copy "Q6" "Q6_c"; Copy "Q7" "Q7_c" ].

Definition build_stock_simplified (xe : Dataset) : Res DataFrame :=
  build "Q6_c" simplified_stock_cells xe.

Definition column_labels (df : DataFrame) : list string := map fst (columns df).

(** The first of the listed variables that the dataset does not have. *)
Definition first_missing (xd : Dataset) (vars : list string) : option string :=
  find (fun v => match lookup v (variables xd) with
                 | None => true
                 | Some _ => false
                 end) vars.

(** Every series of the dataset runs over the shared time coordinate. *)
Definition sized (xd : Dataset) : Prop :=
  forall v a, lookup v (variables xd) = Some a ->
              List.length a = List.length (time xd).

(** ** Temporal reducer: the means

    [df.mean()]: the arithmetic mean of each column, labelled as the
    columns are.  The mean of a column without entries is NaN, which the
    number model does not hold: [None] stands for it, and [frame_mean] is
    [None] when some column's mean is NaN. *)

Definition Qsum (c : list Q) : Q := fold_right Qplus 0 c.

Definition col_mean (c : list Q) : option Q :=
  match c with
  | [] => None
  | _ :: _ => Some (Qsum c / inject_Z (Z.of_nat (List.length c)))
  end.

Fixpoint means (cols : list (string * list Q)) : option Series :=
  match cols with
  | [] => Some []
  | (k, c) :: rest =>
      match col_mean c, means rest with
      | Some m, Some s => Some ((k, m) :: s)
      | _, _ => None
      end
  end.

Definition frame_mean (df : DataFrame) : option Series := means (columns df).

(** The rows of a column paired with their timestamps. *)
Definition rows (df : DataFrame) (c : list Q) : list (Timestamp * Q) :=
  combine (index df) c.

(** * Properties *)

(** ** Comparisons *)

Lemma Qlt_bool_iff (a b : Q) : Qlt_bool a b = true <-> a < b.
Proof. unfold Qlt_bool, Qlt. apply Z.ltb_lt. Qed.

Lemma Qlt_bool_ge (a b : Q) : Qlt_bool a b = false <-> b <= a.
Proof. unfold Qlt_bool, Qle. apply Z.ltb_ge. Qed.

Lemma Qlt_bool_reflect (a b : Q) : reflect (a < b) (Qlt_bool a b).
Proof.
  destruct (Qlt_bool a b) eqn:E; constructor.
  - now apply Qlt_bool_iff.
  - apply Qlt_bool_ge in E. now apply Qle_not_lt.
Qed.

Lemma clamp_cases (v lo hi : Q) :
  lo <= hi ->
  clamp v lo hi == (if Qlt_bool v hi then (if Qlt_bool lo v then v else lo) else hi).
Proof.
  intros Hlh. unfold clamp.
  destruct (Qlt_bool_reflect v hi) as [Hv | Hv].
  - rewrite (Q.min_r hi v) by (apply Qlt_le_weak; exact Hv).
    destruct (Qlt_bool_reflect lo v) as [Hl | Hl].
    + apply Q.max_r. now apply Qlt_le_weak.
    + apply Q.max_l. now apply Qnot_lt_le.
  - apply Qnot_lt_le in Hv.
    rewrite (Q.min_l hi v) by exact Hv.
    now apply Q.max_r.
Qed.

(** ** The loop body on a one-element [maxwidth] *)

Section SingleMaximum.

Import Renderer.

(** [max(0.5, min(10., nvalue))] followed by [.item()], on a one-element
    array. *)
Lemma clip_single (nv : Q) :
  (nn <- clip [nv] ;; to_scalar nn)
  = Ok (if Qlt_bool nv 10 then (if Qlt_bool (5 # 10) nv then nv else 5 # 10) else 10).
Proof.
  unfold clip, py_min, py_max. simpl.
  destruct (Qlt_bool nv 10); simpl.
  - destruct (Qlt_bool (5 # 10) nv); reflexivity.
  - reflexivity.
Qed.

Lemma edge_step_single (dfm : Series) (fl : string) (v M : Q) :
  series_get dfm fl = Ok v ->
  edge_step dfm [M] fl
  = Ok (mkEdge (slice 0 2 fl) (slice_from 2 fl) (step_width v M) (step_color v)).
Proof.
  intros Hv. unfold edge_step, split_code, style, step_width, step_color.
  rewrite Hv. cbn [bind].
  destruct (Qlt_bool v (1 # 100000)); [reflexivity |].
  destruct (Qlt_bool v (2 # 10)); [reflexivity |].
  cbn [scaled map].
  pose proof (clip_single (v * (x / M))) as Hc.
  destruct (clip [v * (x / M)]) as [nn | e]; cbn [bind] in *.
  - cbn [snd fst]. rewrite Hc. reflexivity.
  - discriminate Hc.
Qed.

End SingleMaximum.

(** ** Tiers and widths *)

Section Styling.

Import Renderer.

Lemma step_width_significant (v M : Q) :
  2 # 10 <= v ->
  step_width v M == clamp (v * (10 / M)) (5 # 10) 10.
Proof.
  intros Hv. unfold step_width.
  assert (H1 : Qlt_bool v (1 # 100000) = false) by (apply Qlt_bool_ge; lra).
  assert (H2 : Qlt_bool v (2 # 10) = false) by (apply Qlt_bool_ge; lra).
  rewrite H1, H2. cbv zeta. unfold x.
  symmetry. apply clamp_cases. lra.
Qed.

Lemma step_width_bounds (v M : Q) : 5 # 10 <= step_width v M <= 10.
Proof.
  unfold step_width.
  destruct (Qlt_bool v (1 # 100000)); [lra |].
  destruct (Qlt_bool v (2 # 10)); [lra |].
  cbv zeta.
  destruct (Qlt_bool_reflect (v * (x / M)) 10) as [Hhi | Hhi]; [| lra].
  destruct (Qlt_bool_reflect (5 # 10) (v * (x / M))) as [Hlo | Hlo]; lra.
Qed.

Lemma scale_monotone (v1 v2 M : Q) :
  0 < M -> v1 <= v2 -> v1 * (x / M) <= v2 * (x / M).
Proof.
  intros HM Hv. apply Qmult_le_compat_r; [exact Hv |].
  unfold x, Qdiv. apply Qmult_le_0_compat; [lra |].
  apply Qlt_le_weak, Qinv_lt_0_compat, HM.
Qed.

Lemma clamp_monotone (a b lo hi : Q) :
  a <= b -> clamp a lo hi <= clamp b lo hi.
Proof.
  intros Hab. unfold clamp.
  apply Q.max_le_compat_l, Q.min_le_compat_l, Hab.
Qed.

End Styling.

(** C1. For a mean flux [v] found under the edge code and a single positive
    maximum [M], one loop iteration produces an edge whose tier follows the
    fixed precedence: below 1e-5 it is negligible, blue, width exactly 0.5;
    otherwise below 0.2 it is minor, red, width exactly 0.5; otherwise it is
    significant, dark semi-transparent, with width
    clamp(v * (10 / M), 0.5, 10). *)
Theorem edge_tiers_in_order (dfm : Series) (fl : string) (v M : Q) :
  series_get dfm fl = Ok v ->
  0 < M ->
  exists e, Renderer.edge_step dfm [M] fl = Ok e /\
    Renderer.color e = tier_color (classify_tier v) /\
    Renderer.penwidth e == tier_width (classify_tier v) v M /\
    (v < 1 # 100000 ->
       classify_tier v = Negligible /\
       Renderer.color e = "#0066CC" /\ Renderer.penwidth e = 5 # 10) /\
    (1 # 100000 <= v -> v < 2 # 10 ->
       classify_tier v = Minor /\
       Renderer.color e = "#CC0000" /\ Renderer.penwidth e = 5 # 10) /\
    (2 # 10 <= v ->
       classify_tier v = Significant /\
       Renderer.color e = "#000000B0" /\
       Renderer.penwidth e == clamp (v * (10 / M)) (5 # 10) 10).
Proof.
  intros Hv HM. eexists. split; [apply edge_step_single; exact Hv |].
  cbn [Renderer.color Renderer.penwidth].
  pose proof (step_width_significant v M) as Hsig.
  unfold step_color, classify_tier, tier_color, tier_width in *.
  unfold step_width in *.
  destruct (Qlt_bool_reflect v (1 # 100000)) as [H1 | H1].
  - repeat split; try reflexivity; intros; exfalso; lra.
  - destruct (Qlt_bool_reflect v (2 # 10)) as [H2 | H2].
    + repeat split; try reflexivity; intros; exfalso; lra.
    + assert (H2' : 2 # 10 <= v) by lra.
      repeat split; try reflexivity; try (intros; exfalso; lra);
        try (intros; apply Hsig; assumption).
Qed.

Lemma edge_tiers_in_order_witness :
  exists e, Renderer.edge_step [("A1B1", 0); ("C1D1", 1 # 10); ("E1F1", 5)] [5] "E1F1" = Ok e /\
    Renderer.color e = "#000000B0" /\ Renderer.penwidth e == 10.
Proof.
  destruct (edge_tiers_in_order [("A1B1", 0); ("C1D1", 1 # 10); ("E1F1", 5)] "E1F1" 5 5)
    as (e & He & _ & _ & _ & _ & Hs); [reflexivity | reflexivity |].
  exists e. split; [exact He |].
  destruct Hs as (_ & Hc & Hw); [discriminate |].
  split; [exact Hc |]. rewrite Hw. reflexivity.
Defined.

(** In exact arithmetic, feeding a positive maximum [M] itself through the significant-tier
    width expression, [max(0.5, min(10., M * (x / maxwidth)))] with
    [maxwidth = [M]], yields the width 10 itself: the quotient cancels, the
    test [nvalue < 10.] fails and [min] keeps its literal first argument.
    So an edge whose mean flux is the maximum, when significant, is drawn
    with width exactly 10. *)
Lemma exact_maximum_maps_to_full_width (M : Q) :
  0 < M ->
  (nn <- Renderer.clip (Renderer.scaled M [M]) ;; to_scalar nn) = Ok 10 /\
  clamp (M * (10 / M)) (5 # 10) 10 == 10 /\
  (forall dfm fl, series_get dfm fl = Ok M -> 2 # 10 <= M ->
     exists e, Renderer.edge_step dfm [M] fl = Ok e /\ Renderer.penwidth e = 10).
Proof.
  intros HM.
  assert (Hnv : M * (Renderer.x / M) == 10).
  { unfold Renderer.x. field. lra. }
  assert (Hlt : Qlt_bool (M * (Renderer.x / M)) 10 = false).
  { apply Qlt_bool_ge, Qle_lteq. right. symmetry. exact Hnv. }
  split; [| split].
  - cbn [Renderer.scaled map]. rewrite clip_single, Hlt. reflexivity.
  - rewrite clamp_cases by lra. change (10 / M) with (Renderer.x / M).
    rewrite Hlt. reflexivity.
  - intros dfm fl Hv Hsig. eexists. split; [apply edge_step_single; exact Hv |].
    cbn [Renderer.penwidth]. unfold step_width.
    assert (H1 : Qlt_bool M (1 # 100000) = false) by (apply Qlt_bool_ge; lra).
    assert (H2 : Qlt_bool M (2 # 10) = false) by (apply Qlt_bool_ge; lra).
    rewrite H1, H2. cbv zeta. rewrite Hlt. reflexivity.
Qed.

(** C7. For a fixed positive maximum, the width of a significant edge is
    monotonically non-decreasing in its mean flux: [0.2 <= v1 <= v2] gives
    width(v1) <= width(v2). *)
Theorem significant_width_monotone (dfm : Series) (fl1 fl2 : string) (v1 v2 M : Q) :
  0 < M ->
  series_get dfm fl1 = Ok v1 ->
  series_get dfm fl2 = Ok v2 ->
  2 # 10 <= v1 -> 2 # 10 <= v2 -> v1 <= v2 ->
  exists e1 e2,
    Renderer.edge_step dfm [M] fl1 = Ok e1 /\
    Renderer.edge_step dfm [M] fl2 = Ok e2 /\
    Renderer.penwidth e1 <= Renderer.penwidth e2.
Proof.
  intros HM H1 H2 Hs1 Hs2 Hle.
  do 2 eexists. split; [apply edge_step_single; exact H1 |].
  split; [apply edge_step_single; exact H2 |].
  cbn [Renderer.penwidth].
  rewrite (step_width_significant v1 M Hs1), (step_width_significant v2 M Hs2).
  apply clamp_monotone. apply (scale_monotone v1 v2 M HM Hle).
Qed.

Lemma significant_width_monotone_witness :
  exists e1 e2,
    Renderer.edge_step [("Q6Y4", 40); ("Q6H1", 3); ("H1G3", 12)] [40] "Q6H1" = Ok e1 /\
    Renderer.edge_step [("Q6Y4", 40); ("Q6H1", 3); ("H1G3", 12)] [40] "H1G3" = Ok e2 /\
    Renderer.penwidth e1 <= Renderer.penwidth e2.
Proof.
  apply (significant_width_monotone
           [("Q6Y4", 40); ("Q6H1", 3); ("H1G3", 12)] "Q6H1" "H1G3" 3 12 40);
    try reflexivity; unfold Qle; simpl; lia.
Defined.

(** C9. Whatever the tier of the mean flux [v], for a single positive
    maximum the pen width of the rendered edge lies in [0.5, 10]. *)
Theorem penwidth_in_visual_range (dfm : Series) (fl : string) (v M : Q) :
  series_get dfm fl = Ok v ->
  0 < M ->
  exists e, Renderer.edge_step dfm [M] fl = Ok e /\
    5 # 10 <= Renderer.penwidth e /\ Renderer.penwidth e <= 10.
Proof.
  intros Hv HM. eexists. split; [apply edge_step_single; exact Hv |].
  cbn [Renderer.penwidth]. apply step_width_bounds.
Qed.

Lemma penwidth_in_visual_range_witness :
  exists e, Renderer.edge_step [("Q6Y4", 40); ("Q6H1", 3)] [40] "Q6H1" = Ok e /\
    5 # 10 <= Renderer.penwidth e /\ Renderer.penwidth e <= 10.
Proof.
  apply (penwidth_in_visual_range [("Q6Y4", 40); ("Q6H1", 3)] "Q6H1" 3 40);
    reflexivity.
Defined.

(** ** Edge codes *)

Lemma take_drop_append (n : nat) (s : string) : str_take n s ++ str_drop n s = s.
Proof.
  revert s. induction n as [| n IH]; intros [| c s]; cbn; try reflexivity.
  now rewrite IH.
Qed.

Lemma drop_zero (s : string) : str_drop 0 s = s.
Proof. destruct s; reflexivity. Qed.


Lemma drop_length (n : nat) (s : string) :
  String.length (str_drop n s) = (String.length s - n)%nat.
Proof.
  revert s. induction n as [| n IH]; intros [| c s]; cbn; try reflexivity.
  apply IH.
Qed.

Lemma take_is_substring (n : nat) (s : string) :
  str_take n s = substring 0 (Nat.min n (String.length s)) s.
Proof.
  revert s. induction n as [| n IH]; intros [| c s]; cbn; try reflexivity.
  now rewrite IH.
Qed.

Lemma substring_whole (s : string) : substring 0 (String.length s) s = s.
Proof. induction s as [| c s IH]; cbn; [reflexivity | now rewrite IH]. Qed.

Lemma drop_is_substring (n : nat) (s : string) :
  str_drop n s = substring n (String.length s - n) s.
Proof.
  revert s. induction n as [| n IH]; intros [| c s]; cbn; try reflexivity.
  - now rewrite substring_whole.
  - apply IH.
Qed.

(** The iteration never fails on account of the code's shape: with the
    mean flux present and one maximum, it draws the edge between the two
    slices. *)
Lemma edge_step_endpoints (dfm : Series) (fl : string) (v M : Q) :
  series_get dfm fl = Ok v ->
  exists e, Renderer.edge_step dfm [M] fl = Ok e /\
    (Renderer.tail e, Renderer.head e) = split_code fl.
Proof.
  intros Hv. eexists. split; [apply edge_step_single; exact Hv | reflexivity].
Qed.

(** C10. For an edge code of any length the split is total; the source is
    the first min(2, length) characters, the destination is the whole
    remainder, and source followed by destination is the code again.  A
    5-character code therefore has a 3-character destination, and the
    iteration that draws it does not fail. *)
Theorem split_total_and_lossless (fl : string) :
  exists src dst,
    split_code fl = (src, dst) /\
    src = substring 0 (Nat.min 2 (String.length fl)) fl /\
    dst = substring 2 (String.length fl - 2) fl /\
    src ++ dst = fl /\
    (String.length fl = 5%nat -> String.length dst = 3%nat) /\
    (forall dfm v M, series_get dfm fl = Ok v ->
       exists e, Renderer.edge_step dfm [M] fl = Ok e /\
         Renderer.tail e = src /\ Renderer.head e = dst).
Proof.
  exists (slice 0 2 fl), (slice_from 2 fl).
  unfold slice, slice_from. rewrite Nat.sub_0_r, drop_zero.
  split; [reflexivity |].
  split; [apply take_is_substring |].
  split; [apply drop_is_substring |].
  split; [apply take_drop_append |].
  split.
  - intros Hlen. rewrite drop_length, Hlen. reflexivity.
  - intros dfm v M Hv. eexists.
    split; [apply edge_step_single; exact Hv | split; reflexivity].
Qed.

Lemma split_total_and_lossless_witness :
  exists src dst,
    split_code "R6Q67" = (src, dst) /\ src ++ dst = "R6Q67" /\
    String.length dst = 3%nat /\
    exists e, Renderer.edge_step [("R6Q67", 2)] [2] "R6Q67" = Ok e /\
      Renderer.tail e = src /\ Renderer.head e = dst.
Proof.
  destruct (split_total_and_lossless "R6Q67")
    as (src & dst & Hs & _ & _ & Happ & Hlen & Hstep).
  exists src, dst. split; [exact Hs |]. split; [exact Happ |].
  split; [apply Hlen; reflexivity |].
  apply (Hstep [("R6Q67", 2)] 2 2). reflexivity.
Defined.

(** ** The maximum mean flux and ties *)

Lemma series_max_upper (s : Series) (m : Q) :
  series_max s = Some m -> forall k v, In (k, v) s -> v <= m.
Proof.
  revert m. induction s as [| [k0 v0] s IH]; intros m Hm k v Hin.
  - destruct Hin.
  - cbn in Hm. destruct (series_max s) as [m' |] eqn:Hs.
    + injection Hm as <-. destruct Hin as [Heq | Hin].
      * injection Heq as _ <-.
        destruct (Qlt_bool_reflect v0 m'); lra.
      * specialize (IH m' eq_refl k v Hin).
        destruct (Qlt_bool_reflect v0 m'); lra.
    + injection Hm as <-. destruct Hin as [Heq | Hin].
      * injection Heq as _ <-. lra.
      * destruct s as [| [k1 v1] s]; [destruct Hin |].
        cbn in Hs. destruct (series_max s); discriminate Hs.
Qed.

Lemma series_max_attained (s : Series) (m : Q) :
  series_max s = Some m -> exists k, In (k, m) s.
Proof.
  revert m. induction s as [| [k0 v0] s IH]; intros m Hm; [discriminate |].
  cbn in Hm. destruct (series_max s) as [m' |] eqn:Hs.
  - injection Hm as <-. destruct (Qlt_bool v0 m').
    + destruct (IH m' eq_refl) as [k Hk]. exists k. now right.
    + exists k0. now left.
  - injection Hm as <-. exists k0. now left.
Qed.

(** [maxw] lists every column whose mean equals the maximum, and only
    those, in the order of the series. *)
Lemma max_entries_are_the_maxima (dfm : Series) (k : string) (v : Q) :
  In (k, v) (max_entries dfm) <->
  In (k, v) dfm /\ forall k' v', In (k', v') dfm -> v' <= v.
Proof.
  unfold max_entries. destruct (series_max dfm) as [m |] eqn:Hm.
  - rewrite filter_In. cbn [snd]. split.
    + intros [Hin Heq]. apply Qeq_bool_iff in Heq. split; [exact Hin |].
      intros k' v' Hin'. pose proof (series_max_upper dfm m Hm k' v' Hin'). lra.
    + intros [Hin Hup]. split; [exact Hin |]. apply Qeq_bool_iff.
      destruct (series_max_attained dfm m Hm) as [km Hkm].
      pose proof (Hup km m Hkm). pose proof (series_max_upper dfm m Hm k v Hin).
      lra.
  - destruct dfm as [| [k0 v0] s]; [cbn; tauto |].
    cbn in Hm. destruct (series_max s); discriminate Hm.
Qed.

(** With two or more values in [maxwidth], a significant edge cannot be
    styled: [min(10., nvalue)] asks for the truth value of an array of
    several elements. *)
Lemma several_maxima_raise (dfm : Series) (maxwidth : list Q) (fl : string) (v : Q) :
  (2 <= List.length maxwidth)%nat ->
  series_get dfm fl = Ok v ->
  2 # 10 <= v ->
  Renderer.edge_step dfm maxwidth fl = Raise ValueError.
Proof.
  intros Hlen Hv Hsig.
  unfold Renderer.edge_step, split_code, Renderer.style. rewrite Hv. cbn [bind].
  assert (H1 : Qlt_bool v (1 # 100000) = false) by (apply Qlt_bool_ge; lra).
  assert (H2 : Qlt_bool v (2 # 10) = false) by (apply Qlt_bool_ge; lra).
  rewrite H1, H2.
  destruct maxwidth as [| m1 [| m2 rest]]; cbn in Hlen; try lia.
  reflexivity.
Qed.

(** Negligible and minor edges never look at [maxwidth]. *)
Lemma small_flux_ignores_maxwidth (dfm : Series) (mw1 mw2 : list Q) (fl : string) (v : Q) :
  series_get dfm fl = Ok v ->
  v < 2 # 10 ->
  Renderer.edge_step dfm mw1 fl = Renderer.edge_step dfm mw2 fl.
Proof.
  intros Hv Hsmall.
  unfold Renderer.edge_step, split_code, Renderer.style. rewrite Hv. cbn [bind].
  destruct (Qlt_bool v (1 # 100000)); [reflexivity |].
  assert (H2 : Qlt_bool v (2 # 10) = true) by (apply Qlt_bool_iff; exact Hsmall).
  rewrite H2. reflexivity.
Qed.

Lemma tie_stops_the_loop (dfm : Series) (fl : string) (rest : list string) (v : Q) :
  (2 <= List.length (max_entries dfm))%nat ->
  series_get dfm fl = Ok v ->
  2 # 10 <= v ->
  Renderer.draw dfm (fl :: rest) = Raise ValueError.
Proof.
  intros Htie Hv Hsig. unfold Renderer.draw. cbn [Renderer.render].
  rewrite (several_maxima_raise dfm (values (max_entries dfm)) fl v); try assumption.
  - reflexivity.
  - unfold values. rewrite length_map. exact Htie.
Qed.

(** The specification's scenario: means 0, 0.1 and 5 with maximum 5 give a
    negligible, a minor and a significant edge of width 0.5, 0.5 and 10. *)
Example three_tier_scenario :
  Renderer.draw [("A1B1", 0); ("C1D1", 1 # 10); ("E1F1", 5)]
                ["A1B1"; "C1D1"; "E1F1"]
  = Ok [Renderer.mkEdge "A1" "B1" (5 # 10) "#0066CC";
        Renderer.mkEdge "C1" "D1" (5 # 10) "#CC0000";
        Renderer.mkEdge "E1" "F1" 10 "#000000B0"].
Proof. reflexivity. Qed.

(** C5, evaluated on a series with two columns tied at the maximum 5.
    [maxw] reports both tied columns, in order.  [maxwidth] is then the
    array of both values, not the first one alone, and the loop raises
    [ValueError] at the significant edge; with the scalar maximum of the
    first tied column the same edge would be drawn with width 10. *)
Theorem tied_maximum_breaks_scaling :
  max_entries [("Q6Y4", 5); ("Q6H1", 5); ("H1G3", 1 # 10)]
    = [("Q6Y4", 5); ("Q6H1", 5)] /\
  Renderer.draw [("Q6Y4", 5); ("Q6H1", 5); ("H1G3", 1 # 10)] ["Q6Y4"]
    = Raise ValueError /\
  Renderer.render [("Q6Y4", 5); ("Q6H1", 5); ("H1G3", 1 # 10)] [5] ["Q6Y4"]
    = Ok [Renderer.mkEdge "Q6" "Y4" 10 "#000000B0"].
Proof. repeat split. Qed.

(** ** The year filter *)

Lemma select_all_true {A : Type} (n : nat) (xs : list A) :
  (List.length xs <= n)%nat -> select (repeat true n) xs = xs.
Proof.
  revert xs. induction n as [| n IH]; intros [| v xs] Hlen; cbn in *;
    try reflexivity; try lia.
  rewrite IH by lia. reflexivity.
Qed.

Lemma select_all_false {A : Type} (mask : list bool) (xs : list A) :
  Forall (fun b => b = false) mask -> select mask xs = [].
Proof.
  intros Hm. revert xs. induction Hm as [| b mask Hb _ IH]; intros [| v xs];
    cbn; try reflexivity.
  rewrite Hb. apply IH.
Qed.

Lemma select_length_le {A : Type} (mask : list bool) (xs : list A) :
  (List.length (select mask xs) <= List.length (filter (fun b => b) mask))%nat.
Proof.
  revert xs. induction mask as [| b mask IH]; intros [| v xs]; cbn; try lia.
  specialize (IH xs). destruct b; cbn; lia.
Qed.

(** The mask of an already filtered index is all true. *)
Lemma year_mask_of_selected (y : Z) (idx : list Timestamp) :
  year_mask y (select (year_mask y idx) idx)
  = repeat true (List.length (filter (fun b => b) (year_mask y idx))).
Proof.
  induction idx as [| t idx IH]; cbn; [reflexivity |].
  destruct (Z.eqb (year t) y) eqn:E; cbn.
  - rewrite E. f_equal. exact IH.
  - exact IH.
Qed.

Lemma year_mask_no_rows (y : Z) (idx : list Timestamp) :
  List.length (filter (fun t => Z.eqb (year t) y) idx) = 0%nat ->
  Forall (fun b => b = false) (year_mask y idx).
Proof.
  induction idx as [| t idx IH]; cbn; intros Hn; [constructor |].
  destruct (Z.eqb (year t) y); cbn in Hn; [discriminate |].
  constructor; [reflexivity | apply IH, Hn].
Qed.

(** C4, as the reducer behaves.  When no row of a table lies in the target
    year, filtering does not fail: it returns the table with the same
    column labels and no rows. *)
Theorem empty_window_is_not_an_error (y : Z) (df dv : DataFrame) :
  rows_in_year y df = 0%nat ->
  returns (filter_tables y df dv) /\
  index (filter_year y df) = [] /\
  columns (filter_year y df) = map (fun kc => (fst kc, [])) (columns df).
Proof.
  intros Hrows. apply year_mask_no_rows in Hrows.
  split; [eexists; reflexivity |].
  unfold filter_year. cbn [index columns].
  split; [apply select_all_false, Hrows |].
  apply map_ext. intros [k c]. cbn [fst snd].
  now rewrite select_all_false.
Qed.

Lemma empty_window_is_not_an_error_witness :
  rows_in_year 2016 (mkFrame [mkTimestamp 2015 7 1 0; mkTimestamp 2017 1 1 0]
                             [("R4Q6", [1; 2])]) = 0%nat /\
  columns (filter_year 2016 (mkFrame [mkTimestamp 2015 7 1 0; mkTimestamp 2017 1 1 0]
                                     [("R4Q6", [1; 2])]))
  = [("R4Q6", [])].
Proof.
  split; [reflexivity |].
  apply (empty_window_is_not_an_error 2016
           (mkFrame [mkTimestamp 2015 7 1 0; mkTimestamp 2017 1 1 0] [("R4Q6", [1; 2])])
           (mkFrame [] [])).
  reflexivity.
Defined.

(** C4 as stated fails: with no row in the target year the filtering step
    returns empty tables and raises nothing. *)
Lemma empty_window_returns :
  rows_in_year target_year
    (mkFrame [mkTimestamp 2015 12 31 0] [("R4Q6", [3])]) = 0%nat /\
  rows_in_year target_year
    (mkFrame [mkTimestamp 2015 12 31 0] [("Q6", [7])]) = 0%nat /\
  filter_tables target_year
    (mkFrame [mkTimestamp 2015 12 31 0] [("R4Q6", [3])])
    (mkFrame [mkTimestamp 2015 12 31 0] [("Q6", [7])])
  = Ok (mkFrame [] [("R4Q6", [])], mkFrame [] [("Q6", [])]) /\
  ~ raises (filter_tables target_year
    (mkFrame [mkTimestamp 2015 12 31 0] [("R4Q6", [3])])
    (mkFrame [mkTimestamp 2015 12 31 0] [("Q6", [7])])).
Proof.
  repeat split. intros [e He]. discriminate He.
Qed.

Lemma select_length_eq {A B : Type} (mask : list bool) (xs : list A) (ys : list B) :
  List.length xs = List.length ys ->
  List.length (select mask xs) = List.length (select mask ys).
Proof.
  revert xs ys. induction mask as [| b mask IH]; intros [| u xs] [| v ys] H;
    cbn in *; try reflexivity; try discriminate.
  destruct b; cbn; [f_equal |]; apply IH; lia.
Qed.

(** Filtering keeps every column as long as the index. *)
Lemma filter_year_well_formed (y : Z) (df : DataFrame) :
  well_formed df -> well_formed (filter_year y df).
Proof.
  unfold well_formed, filter_year. cbn [index columns]. intros H.
  apply Forall_map. apply (Forall_impl _ (P := fun kc => List.length (snd kc)
                                            = List.length (index df))); [| exact H].
  intros [k c] Hl. cbn [snd] in *. now apply select_length_eq.
Qed.

(** C8. Filtering to a year is idempotent: a table already filtered to the
    year is returned unchanged by filtering it to that year again. *)
Theorem filter_year_idempotent (y : Z) (df : DataFrame) :
  filter_year y (filter_year y df) = filter_year y df.
Proof.
  unfold filter_year. cbn [index columns].
  rewrite year_mask_of_selected.
  f_equal.
  - apply select_all_true. apply select_length_le.
  - rewrite map_map. apply map_ext. intros [k c]. cbn [fst snd].
    f_equal. apply select_all_true. apply select_length_le.
Qed.

(** ** The flux table builder *)

Lemma bind_ok {A B : Type} (r : Res A) (k : A -> Res B) (b : B) :
  bind r k = Ok b -> exists a, r = Ok a /\ k a = Ok b.
Proof. destruct r as [a | e]; cbn; [eauto | discriminate]. Qed.

Lemma lookup_put_same (k : string) (v : list Q) (l : list (string * list Q)) :
  lookup k (put k v l) = Some v.
Proof.
  induction l as [| [k' v'] l IH]; cbn.
  - now rewrite String.eqb_refl.
  - destruct (String.eqb k' k) eqn:E; cbn.
    + now rewrite String.eqb_refl.
    + now rewrite E.
Qed.

Lemma lookup_put_other (k k' : string) (v : list Q) (l : list (string * list Q)) :
  k <> k' -> lookup k' (put k v l) = lookup k' l.
Proof.
  intros Hne. induction l as [| [k0 v0] l IH]; cbn.
  - destruct (String.eqb_spec k k'); [contradiction | reflexivity].
  - destruct (String.eqb_spec k0 k) as [-> | Hk]; cbn.
    + destruct (String.eqb_spec k k'); [contradiction | reflexivity].
    + destruct (String.eqb k0 k'); [reflexivity | exact IH].
Qed.

Lemma df_set_ok (df df' : DataFrame) (k : string) (a : list Q) :
  df_set df k a = Ok df' ->
  List.length a = List.length (index df) /\
  index df' = index df /\
  df_col df' k = Ok a /\
  (forall k', k <> k' -> df_col df' k' = df_col df k').
Proof.
  unfold df_set, df_col. destruct (Nat.eqb_spec (List.length a) (List.length (index df)));
    [| discriminate].
  intros [= <-]. cbn [index columns].
  rewrite lookup_put_same. repeat split; try assumption.
  intros k' Hne. now rewrite lookup_put_other.
Qed.

Lemma exec_frame (xd : Dataset) (df df' : DataFrame) (s : stmt) :
  exec xd df s = Ok df' ->
  index df' = index df /\
  (forall k, stmt_code s <> k -> df_col df' k = df_col df k).
Proof.
  destruct s as [code var | code var loss k1 k2 p0 ps]; cbn [exec stmt_code]; intros H.
  - apply bind_ok in H as (a & _ & H). apply df_set_ok in H. tauto.
  - apply bind_ok in H as (raw & _ & H). apply bind_ok in H as (l & _ & H).
    apply bind_ok in H as (t1 & _ & H). apply bind_ok in H as (c0 & _ & H).
    apply bind_ok in H as (sm & _ & H). apply bind_ok in H as (t2 & _ & H).
    apply df_set_ok in H. tauto.
Qed.

Lemma run_frame (xd : Dataset) (prog : list stmt) (k : string) :
  writes_elsewhere k prog = true ->
  forall df df', run xd df prog = Ok df' ->
  index df' = index df /\ df_col df' k = df_col df k.
Proof.
  induction prog as [| s prog IH]; cbn; intros Hw df df' H.
  - injection H as <-. split; reflexivity.
  - apply andb_true_iff in Hw as [Hs Hw].
    apply bind_ok in H as (df1 & H1 & H).
    apply exec_frame in H1 as [Hi Hc].
    destruct (IH Hw df1 df' H) as [Hi' Hc'].
    split; [congruence |]. rewrite Hc'. apply Hc.
    intros Heq. rewrite Heq, String.eqb_refl in Hs. discriminate.
Qed.

Lemma run_app (xd : Dataset) (p q : list stmt) (df : DataFrame) :
  run xd df (p ++ q) = (df1 <- run xd df p ;; run xd df1 q).
Proof.
  revert df. induction p as [| s p IH]; intros df; cbn; [reflexivity |].
  destruct (exec xd df s) as [df1 | e]; cbn; [apply IH | reflexivity].
Qed.

Lemma ew_add_ok (a b c : list Q) :
  ew_add a b = Ok c ->
  List.length a = List.length b /\ c = zip_add a b.
Proof.
  unfold ew_add. destruct (Nat.eqb_spec (List.length a) (List.length b));
    [intros [= <-]; auto | discriminate].
Qed.

Lemma zip_add_length (a b : list Q) :
  List.length a = List.length b -> List.length (zip_add a b) = List.length a.
Proof.
  revert b. induction a as [| u a IH]; intros [| v b]; cbn; intros H;
    try reflexivity; try discriminate.
  f_equal. apply IH. lia.
Qed.

Lemma zip_add_nth (a b : list Q) (i : nat) :
  List.length a = List.length b ->
  nth i (zip_add a b) 0 == nth i a 0 + nth i b 0.
Proof.
  revert b i. induction a as [| u a IH]; intros [| v b] [| i]; cbn; intros H;
    try discriminate; try lra.
  apply IH. lia.
Qed.

Lemma map_nth_scaled (f : Q -> Q) (l : list Q) (i : nat) :
  f 0 == 0 -> nth i (map f l) 0 == f (nth i l 0).
Proof.
  intros Hf. revert i. induction l as [| u l IH]; intros [| i]; cbn;
    try (symmetry; exact Hf); try reflexivity.
  apply IH.
Qed.

(** What the deposit-feeder return statement stores, in terms of the
    columns it reads. *)
Lemma deposit_feeder_return_exec (xd : Dataset) (df df' : DataFrame) :
  exec xd df deposit_feeder_return = Ok df' ->
  exists raw q6 h1 h2 y4,
    xd_var xd "Y2_fYQPc" = Ok raw /\
    df_col df "Q6Y2" = Ok q6 /\ df_col df "H1Y2" = Ok h1 /\
    df_col df "H2Y2" = Ok h2 /\ df_col df "Y4Y2" = Ok y4 /\
    List.length raw = List.length q6 /\ List.length h1 = List.length q6 /\
    List.length h2 = List.length q6 /\ List.length y4 = List.length q6 /\
    List.length q6 = List.length (index df) /\
    df_set df "Y2Q6"
      (zip_add (zip_add raw (map (fun v => v * (8 # 10)) q6))
               (map (fun v => (35 # 100) * v) (zip_add (zip_add h1 h2) y4)))
    = Ok df'.
Proof.
  unfold deposit_feeder_return. cbn [exec sum_cols]. intros H.
  apply bind_ok in H as (raw & Hraw & H). apply bind_ok in H as (q6 & Hq6 & H).
  apply bind_ok in H as (t1 & Ht1 & H). apply bind_ok in H as (h1 & Hh1 & H).
  apply bind_ok in H as (sm & Hsm & H). apply bind_ok in H as (t2 & Ht2 & H).
  apply bind_ok in Hsm as (h2 & Hh2 & Hsm). apply bind_ok in Hsm as (s1 & Hs1 & Hsm).
  apply bind_ok in Hsm as (y4 & Hy4 & Hsm). apply bind_ok in Hsm as (s2 & Hs2 & Hsm).
  injection Hsm as <-.
  apply ew_add_ok in Ht1 as [L1 ->]. apply ew_add_ok in Hs1 as [L2 ->].
  apply ew_add_ok in Hs2 as [L3 ->]. apply ew_add_ok in Ht2 as [L4 ->].
  rewrite length_map in L1.
  rewrite zip_add_length in L3 by exact L2.
  rewrite zip_add_length in L4 by (rewrite length_map; exact L1).
  rewrite length_map, zip_add_length in L4 by (rewrite zip_add_length; assumption).
  rewrite zip_add_length in L4 by exact L2.
  pose proof (df_set_ok _ _ _ _ H) as (L5 & _).
  rewrite zip_add_length in L5 by
    (rewrite length_map, !zip_add_length; rewrite ?length_map, ?zip_add_length; congruence).
  rewrite zip_add_length in L5 by (rewrite length_map; exact L1).
  exists raw, q6, h1, h2, y4. repeat split; try assumption; congruence.
Qed.

(** C3. In the flux table the detailed builder returns, the column Y2Q6
    holds, at every row, Y2_fYQPc + 0.8 * Q6Y2 + 0.35 * (H1Y2 + H2Y2 + Y4Y2),
    with Q6Y2, H1Y2, H2Y2, Y4Y2 the columns of that same table and Y2_fYQPc
    the dataset's series; all six series have one entry per timestamp. *)
Theorem deposit_feeder_return_formula (xd : Dataset) (df : DataFrame) :
  build_detailed xd = Ok df ->
  exists raw q6 h1 h2 y4 y2q6,
    xd_var xd "Y2_fYQPc" = Ok raw /\
    df_col df "Q6Y2" = Ok q6 /\ df_col df "H1Y2" = Ok h1 /\
    df_col df "H2Y2" = Ok h2 /\ df_col df "Y4Y2" = Ok y4 /\
    df_col df "Y2Q6" = Ok y2q6 /\
    index df = time xd /\
    List.length y2q6 = List.length (index df) /\
    List.length raw = List.length (index df) /\
    List.length q6 = List.length (index df) /\
    List.length h1 = List.length (index df) /\
    List.length h2 = List.length (index df) /\
    List.length y4 = List.length (index df) /\
    forall i, (i < List.length (index df))%nat ->
      nth i y2q6 0 ==
      nth i raw 0 + (8 # 10) * nth i q6 0
      + (35 # 100) * (nth i h1 0 + nth i h2 0 + nth i y4 0).
Proof.
  unfold build_detailed, new_frame. intros H.
  apply bind_ok in H as (df0 & H0 & H).
  apply bind_ok in H0 as (t0 & _ & H0). injection H0 as <-.
  change detailed_flux_cells
    with ((deposition ++ bacteria ++ deposit_feeder_prey)
          ++ [deposit_feeder_return] ++ fauna_rest)%list in H.
  rewrite run_app in H. apply bind_ok in H as (df1 & H1 & H).
  rewrite run_app in H. apply bind_ok in H as (df2 & H2 & H).
  cbn [run] in H2. apply bind_ok in H2 as (df2' & H2 & Heq). injection Heq as ->.
  assert (Hidx1 : index df1 = time xd).
  { pose proof (run_frame xd (deposition ++ bacteria ++ deposit_feeder_prey)%list
                  "" eq_refl _ _ H1) as [Hi _].
    exact Hi. }
  apply deposit_feeder_return_exec in H2
    as (raw & q6 & h1 & h2 & y4 & Hraw & Hq6 & Hh1 & Hh2 & Hy4
        & L1 & L2 & L3 & L4 & L5 & Hset).
  apply df_set_ok in Hset as (L6 & Hidx2 & Hy & Hother).
  pose proof (run_frame xd fauna_rest "Y2Q6" eq_refl _ _ H) as [Hidx Hc0].
  pose proof (run_frame xd fauna_rest "Q6Y2" eq_refl _ _ H) as [_ Hc1].
  pose proof (run_frame xd fauna_rest "H1Y2" eq_refl _ _ H) as [_ Hc2].
  pose proof (run_frame xd fauna_rest "H2Y2" eq_refl _ _ H) as [_ Hc3].
  pose proof (run_frame xd fauna_rest "Y4Y2" eq_refl _ _ H) as [_ Hc4].
  rewrite Hother in Hc1, Hc2, Hc3, Hc4 by discriminate.
  eexists raw, q6, h1, h2, y4, _.
  split; [exact Hraw |]. split; [congruence |]. split; [congruence |].
  split; [congruence |]. split; [congruence |].
  split; [rewrite Hc0; exact Hy |].
  split; [congruence |].
  repeat (split; [congruence |]).
  intros i _.
  rewrite zip_add_nth.
  2:{ rewrite length_map, !zip_add_length; rewrite ?length_map, ?zip_add_length; congruence. }
  rewrite zip_add_nth by (rewrite length_map; exact L1).
  rewrite (map_nth_scaled (fun v => v * (8 # 10))) by lra.
  rewrite (map_nth_scaled (fun v => (35 # 100) * v)) by lra.
  rewrite zip_add_nth by (rewrite zip_add_length; congruence).
  rewrite zip_add_nth by congruence.
  ring.
Qed.

Lemma deposit_feeder_return_formula_witness :
  exists df y2q6,
    build_detailed sample_dataset = Ok df /\
    df_col df "Y2Q6" = Ok y2q6 /\
    nth 0 y2q6 0 == 1 + (8 # 10) * 10 + (35 # 100) * (100 + 1000 + 10000) /\
    nth 1 y2q6 0 == 2 + (8 # 10) * 20 + (35 # 100) * (200 + 2000 + 20000).
Proof.
  assert (Hrun : exists df, build_detailed sample_dataset = Ok df)
    by (eexists; vm_compute; reflexivity).
  destruct Hrun as [df Hrun].
  destruct (deposit_feeder_return_formula sample_dataset df Hrun)
    as (raw & q6 & h1 & h2 & y4 & y & Hraw & Hq6 & Hh1 & Hh2 & Hy4 & Hy
        & Hidx & _ & _ & _ & _ & _ & _ & Hrow).
  exists df, y. split; [exact Hrun |]. split; [exact Hy |].
  assert (Hq6' : df_col df "Q6Y2" = Ok [10; 20]).
  { revert Hrun. vm_compute. intros [= <-]. reflexivity. }
  assert (Hh1' : df_col df "H1Y2" = Ok [100; 200]).
  { revert Hrun. vm_compute. intros [= <-]. reflexivity. }
  assert (Hh2' : df_col df "H2Y2" = Ok [1000; 2000]).
  { revert Hrun. vm_compute. intros [= <-]. reflexivity. }
  assert (Hy4' : df_col df "Y4Y2" = Ok [10000; 20000]).
  { revert Hrun. vm_compute. intros [= <-]. reflexivity. }
  assert (Hn : List.length (index df) = 2%nat).
  { rewrite Hidx. reflexivity. }
  rewrite Hq6 in Hq6'. rewrite Hh1 in Hh1'. rewrite Hh2 in Hh2'. rewrite Hy4 in Hy4'.
  injection Hq6' as ->. injection Hh1' as ->. injection Hh2' as ->. injection Hy4' as ->.
  assert (Hraw' : raw = [1; 2]).
  { vm_compute in Hraw. injection Hraw as <-. reflexivity. }
  subst raw.
  split; [apply (Hrow 0%nat) | apply (Hrow 1%nat)]; rewrite Hn; lia.
Defined.

(** ** The builder succeeds on a complete dataset

    The columns a return statement reads are assigned by earlier statements
    of the cell ([ready]); on a dataset that has every variable the cells
    read, each as long as the time coordinate, the builder returns a
    table. *)

Lemma exec_writes (xd : Dataset) (df df' : DataFrame) (s : stmt) :
  exec xd df s = Ok df' ->
  exists a, df_col df' (stmt_code s) = Ok a /\
            List.length a = List.length (index df).
Proof.
  destruct s as [code var | code var loss k1 k2 p0 ps]; cbn [exec stmt_code]; intros H.
  - apply bind_ok in H as (a & _ & H). apply df_set_ok in H. exists a. tauto.
  - apply bind_ok in H as (raw & _ & H). apply bind_ok in H as (l & _ & H).
    apply bind_ok in H as (t1 & _ & H). apply bind_ok in H as (c0 & _ & H).
    apply bind_ok in H as (sm & _ & H). apply bind_ok in H as (t2 & _ & H).
    apply df_set_ok in H. exists t2. tauto.
Qed.

Lemma exec_keeps_cols (xd : Dataset) (df df' : DataFrame) (s : stmt)
      (present : list string) :
  exec xd df s = Ok df' -> cols_ok present df ->
  cols_ok (stmt_code s :: present) df'.
Proof.
  intros H Hok c Hin.
  destruct (exec_frame _ _ _ _ H) as [Hidx Hother].
  destruct (string_dec (stmt_code s) c) as [<- | Hne].
  - destruct (exec_writes _ _ _ _ H) as (a & Ha & Hl). exists a. split; congruence.
  - destruct Hin as [Heq | Hin]; [contradiction |].
    destruct (Hok c Hin) as (a & Ha & Hl). exists a.
    rewrite (Hother c Hne). split; congruence.
Qed.

Lemma sum_cols_total (df : DataFrame) (names : list string) :
  forall acc,
  List.length acc = List.length (index df) ->
  cols_ok names df ->
  exists r, sum_cols df acc names = Ok r /\
            List.length r = List.length (index df).
Proof.
  induction names as [| n names IH]; intros acc Hacc Hok; cbn [sum_cols].
  - exists acc. split; [reflexivity | exact Hacc].
  - destruct (Hok n (or_introl eq_refl)) as (c & Hc & Hl). rewrite Hc. cbn [bind].
    unfold ew_add. rewrite Hacc, Hl, Nat.eqb_refl. cbn [bind].
    apply IH.
    + rewrite zip_add_length; congruence.
    + intros c' Hin. apply Hok. now right.
Qed.

Lemma reads_present (present : list string) (s : stmt) (df : DataFrame) :
  forallb (fun c => existsb (String.eqb c) present) (stmt_reads s) = true ->
  cols_ok present df -> cols_ok (stmt_reads s) df.
Proof.
  intros Hr Hok c Hin. rewrite forallb_forall in Hr.
  specialize (Hr c Hin). apply existsb_exists in Hr as (c' & Hin' & Heq).
  apply String.eqb_eq in Heq. subst c'. apply Hok, Hin'.
Qed.

Lemma exec_total (xd : Dataset) (df : DataFrame) (s : stmt) (present : list string) :
  forallb (fun c => existsb (String.eqb c) present) (stmt_reads s) = true ->
  (exists a, lookup (stmt_var s) (variables xd) = Some a /\
             List.length a = List.length (index df)) ->
  cols_ok present df ->
  exists df', exec xd df s = Ok df'.
Proof.
  intros Hr (raw & Hraw & Lraw) Hok.
  pose proof (reads_present present s df Hr Hok) as Hreads.
  destruct s as [code var | code var loss k1 k2 p0 ps];
    cbn [exec stmt_var stmt_reads] in *; unfold xd_var; rewrite Hraw; cbn [bind].
  - unfold df_set. rewrite Lraw, Nat.eqb_refl. eauto.
  - destruct (Hreads loss (or_introl eq_refl)) as (l & Hl & Ll). rewrite Hl. cbn [bind].
    unfold ew_add at 1. rewrite length_map, Lraw, Ll, Nat.eqb_refl. cbn [bind].
    destruct (Hreads p0 (or_intror (or_introl eq_refl))) as (c0 & Hc0 & L0).
    rewrite Hc0. cbn [bind].
    destruct (sum_cols_total df ps c0 L0) as (sm & Hsm & Lsm).
    { intros c Hin. apply Hreads. right. right. exact Hin. }
    rewrite Hsm. cbn [bind].
    unfold ew_add. rewrite length_map, zip_add_length, Lraw, Lsm, Nat.eqb_refl
      by (rewrite length_map; congruence).
    cbn [bind]. unfold df_set.
    rewrite zip_add_length, zip_add_length, Lraw, Nat.eqb_refl;
      rewrite ?length_map, ?zip_add_length; try congruence; eauto.
    rewrite length_map. congruence.
Qed.

Lemma run_total (xd : Dataset) (prog : list stmt) :
  forall present df,
  ready present prog = true ->
  (forall s, In s prog ->
     exists a, lookup (stmt_var s) (variables xd) = Some a /\
               List.length a = List.length (index df)) ->
  cols_ok present df ->
  exists df', run xd df prog = Ok df'.
Proof.
  induction prog as [| s prog IH]; intros present df Hready Hvars Hok; cbn [run].
  - eauto.
  - cbn [ready] in Hready. apply andb_true_iff in Hready as [Hr Hready].
    destruct (exec_total xd df s present Hr (Hvars s (or_introl eq_refl)) Hok)
      as [df1 H1].
    rewrite H1. cbn [bind].
    destruct (exec_frame _ _ _ _ H1) as [Hidx _].
    apply (IH (stmt_code s :: present) df1 Hready).
    + intros s' Hin. rewrite Hidx. apply Hvars. now right.
    + apply (exec_keeps_cols xd df df1 s present H1 Hok).
Qed.

(** Every return statement of the detailed cells reads columns assigned
    before it. *)
Lemma detailed_cells_ready : ready [] detailed_flux_cells = true.
Proof. reflexivity. Qed.

Lemma build_detailed_total (xd : Dataset) :
  (forall s, In s detailed_flux_cells ->
     exists a, lookup (stmt_var s) (variables xd) = Some a /\
               List.length a = List.length (time xd)) ->
  returns (build_detailed xd).
Proof.
  intros Hvars. unfold returns, build_detailed, new_frame, xd_var.
  destruct (Hvars (Copy "Y2G3" "Y2_fYG3c")) as (a & Ha & _).
  { unfold detailed_flux_cells, deposit_feeder_prey.
    apply in_or_app. right. apply in_or_app. right. apply in_or_app. left.
    cbn. tauto. }
  cbn [stmt_var] in Ha. rewrite Ha. cbn [bind].
  apply (run_total xd detailed_flux_cells [] (mkFrame (time xd) [])
                   detailed_cells_ready Hvars).
  intros c [].
Qed.

(** ** The maximum under rounding *)

Lemma SFltb_leb (a b : spec_float) : SFltb a b = true -> SFleb a b = true.
Proof.
  unfold SFltb, SFleb. destruct (SFcompare a b) as [[| |] |]; congruence.
Qed.

Section ClipBounds.

Variables prec emax : Z.

Hypothesis half_lt_ten : SFltb (IEEE.half prec emax) (IEEE.ten prec emax) = true.
Hypothesis ten_le_ten : SFleb (IEEE.ten prec emax) (IEEE.ten prec emax) = true.
Hypothesis half_le_half : SFleb (IEEE.half prec emax) (IEEE.half prec emax) = true.

Lemma ieee_clip_bounds (nvalue : spec_float) :
  SFleb (IEEE.half prec emax) (IEEE.clip prec emax nvalue) = true /\
  SFleb (IEEE.clip prec emax nvalue) (IEEE.ten prec emax) = true /\
  (SFltb nvalue (IEEE.ten prec emax) = false ->
   IEEE.clip prec emax nvalue = IEEE.ten prec emax).
Proof.
  unfold IEEE.clip, IEEE.py_min, IEEE.py_max.
  destruct (SFltb nvalue (IEEE.ten prec emax)) eqn:Hhi.
  - destruct (SFltb (IEEE.half prec emax) nvalue) eqn:Hlo.
    + repeat split; try discriminate; now apply SFltb_leb.
    + repeat split; try discriminate; [exact half_le_half |].
      now apply SFltb_leb.
  - rewrite half_lt_ten. repeat split; [now apply SFltb_leb | exact ten_le_ten].
Qed.

End ClipBounds.

(** C6 as stated fails under rounding.  In binary64 the maximum
    M = 9.625 gives 10 / M * M = 9.999999999999998, and in binary32 the
    maximum M = 16.625 gives 9.999999: the test against 10 succeeds, and
    the width is that value, one unit in the last place below 10. *)
Lemma rounded_maximum_falls_short :
  SFltb (S754_zero false) (IEEE.lit 53 1024 77 (-3)) = true /\
  IEEE.clip 53 1024
    (IEEE.scaled 53 1024 (IEEE.lit 53 1024 77 (-3)) (IEEE.lit 53 1024 77 (-3)))
  = S754_finite false 5629499534213119 (-49) /\
  IEEE.ten 53 1024 = S754_finite false 5629499534213120 (-49) /\
  SFltb (S754_zero false) (IEEE.lit 24 128 133 (-3)) = true /\
  IEEE.clip 24 128
    (IEEE.scaled 24 128 (IEEE.lit 24 128 133 (-3)) (IEEE.lit 24 128 133 (-3)))
  = S754_finite false 10485759 (-20) /\
  IEEE.ten 24 128 = S754_finite false 10485760 (-20) /\
  IEEE.clip 53 1024
    (IEEE.scaled 53 1024 (IEEE.lit 53 1024 77 (-3)) (IEEE.lit 53 1024 77 (-3)))
  <> IEEE.ten 53 1024 /\
  IEEE.clip 24 128
    (IEEE.scaled 24 128 (IEEE.lit 24 128 133 (-3)) (IEEE.lit 24 128 133 (-3)))
  <> IEEE.ten 24 128.
Proof. repeat split; vm_compute; try reflexivity; discriminate. Qed.

(** ** The product [M * (10 / M)] under rounding to nearest

    The width expression is followed through the operations of the binary
    format: the division [10 / M] and the multiplication by [M] each round
    to nearest, ties to even.  For a float [M > 0] of the format the
    rounded quotient is within half a unit in the last place of [10 / M],
    so the rounded product lands on ten or on one of its two neighbours;
    [min(10., _)] then keeps ten or the float just below it.  A subnormal
    [M] makes the quotient overflow, and the infinite product is clipped to
    ten. *)

Section Rounding.

Local Open Scope Z_scope.

(** One right shift halves the mantissa. *)
Lemma shr_1_mantissa (r : shr_record) :
  0 <= shr_m r -> shr_m (shr_1 r) = shr_m r / 2 /\ 0 <= shr_m (shr_1 r).
Proof.
  destruct r as [m r s]. cbn [shr_m]. intros Hm.
  destruct m as [| x | x]; [cbn; lia | | lia].
  destruct x as [x | x |]; cbn [shr_1 shr_m].
  - rewrite Pos2Z.inj_xI. split; [| lia].
    apply (Z.div_unique _ _ _ 1); lia.
  - rewrite Pos2Z.inj_xO. split; [| lia].
    apply (Z.div_unique _ _ _ 0); lia.
  - split; [reflexivity | lia].
Qed.

(** [k] right shifts divide the mantissa by [2^k]. *)
Lemma shr_iter_mantissa (k : positive) :
  forall r, 0 <= shr_m r ->
  shr_m (iter_pos shr_1 k r) = shr_m r / 2 ^ Zpos k /\
  0 <= shr_m (iter_pos shr_1 k r).
Proof.
  induction k as [k IH | k IH |]; intros r Hr; cbn [iter_pos].
  - destruct (shr_1_mantissa r Hr) as [E1 P1].
    destruct (IH _ P1) as [E2 P2]. destruct (IH _ P2) as [E3 P3].
    split; [| exact P3]. rewrite E3, E2, E1.
    rewrite !Z.div_div by lia. f_equal.
    rewrite <- Z.pow_add_r by lia. change 2 with (2 ^ 1) at 1.
    rewrite <- Z.pow_add_r by lia. f_equal. lia.
  - destruct (IH _ Hr) as [E2 P2]. destruct (IH _ P2) as [E3 P3].
    split; [| exact P3]. rewrite E3, E2.
    rewrite Z.div_div by lia. f_equal.
    rewrite <- Z.pow_add_r by lia. f_equal. lia.
  - destruct (shr_1_mantissa r Hr) as [E1 P1]. split; [| exact P1].
    rewrite E1. reflexivity.
Qed.

(** The number of binary digits, as the standard library counts them. *)
Lemma digits2_size (x : positive) : digits2_pos x = Pos.size x.
Proof. induction x as [x IH | x IH |]; cbn; now rewrite ?IH. Qed.

Lemma Zdigits2_log2 (x : positive) : Zdigits2 (Zpos x) = Z.log2 (Zpos x) + 1.
Proof.
  cbn [Zdigits2]. rewrite digits2_size.
  destruct x as [x | x |]; cbn [Pos.size Z.log2]; lia.
Qed.

(** A number between [2^(d-1)] and [2^d] has [d] binary digits. *)
Lemma Zdigits2_bounds (d X : Z) :
  0 < d -> 2 ^ (d - 1) <= X < 2 ^ d -> Zdigits2 X = d.
Proof.
  intros Hd [Hl Hh].
  assert (0 < 2 ^ (d - 1)) by (apply Z.pow_pos_nonneg; lia).
  destruct X as [| x | x]; try lia.
  rewrite Zdigits2_log2.
  rewrite (Z.log2_unique (Zpos x) (d - 1)); [lia | lia |].
  replace (Z.succ (d - 1)) with d by lia. lia.
Qed.

(** The shift that [shr_fexp] performs. *)
Lemma shr_spec (r : shr_record) (e n : Z) :
  0 <= shr_m r -> 0 <= n ->
  shr_m (fst (shr r e n)) = shr_m r / 2 ^ n /\ snd (shr r e n) = e + n.
Proof.
  intros Hr Hn. destruct n as [| k | k]; cbn [shr fst snd]; try lia.
  - rewrite Z.div_1_r. lia.
  - destruct (shr_iter_mantissa k r Hr) as [E _]. rewrite E. lia.
Qed.

(** Rounding to nearest keeps the truncated mantissa or adds one. *)
Lemma round_cases (m : Z) (l : location) :
  round_nearest_even m l = m \/ round_nearest_even m l = m + 1.
Proof.
  destruct l as [| [| |]]; cbn; auto. destruct (Z.even m); auto.
Qed.

Lemma loc_record_loc (m : Z) (l : location) :
  loc_of_shr_record (shr_record_of_loc m l) = l /\
  shr_m (shr_record_of_loc m l) = m.
Proof. destruct l as [| [| |]]; split; reflexivity. Qed.

(** A division is exact just when its remainder is zero. *)
Lemma new_location_exact (m r : Z) :
  new_location m r = loc_Exact <-> r = 0.
Proof.
  unfold new_location, new_location_even, new_location_odd.
  destruct (Z.even m); destruct (Z.eqb_spec r 0); split; intros H;
    try reflexivity; try assumption; try discriminate; try contradiction.
Qed.

Lemma Zdigits2_spec (x : positive) :
  1 <= Zdigits2 (Zpos x) /\
  2 ^ (Zdigits2 (Zpos x) - 1) <= Zpos x < 2 ^ Zdigits2 (Zpos x).
Proof.
  rewrite Zdigits2_log2.
  pose proof (Z.log2_nonneg (Zpos x)) as H0.
  destruct (Z.log2_spec (Zpos x)) as [Hl Hh]; [lia |].
  replace (Z.log2 (Zpos x) + 1 - 1) with (Z.log2 (Zpos x)) by lia.
  replace (Z.succ (Z.log2 (Zpos x))) with (Z.log2 (Zpos x) + 1) in Hh by lia.
  lia.
Qed.


Variables prec emax : Z.
Hypothesis prec_large : 5 <= prec.
Hypothesis emax_large : prec < emax.

Let emin := emin prec emax.

(** The exponent of a number in the normal range. *)
Lemma fexp_normal (x : Z) :
  emin <= x - prec -> fexp prec emax x = x - prec.
Proof. unfold fexp. intros H. apply Z.max_l. exact H. Qed.

Lemma shr_fexp_spec (X e : Z) (l : location) (d : Z) :
  Zdigits2 X = d -> 0 <= X -> prec <= d -> emin <= d + e - prec ->
  shr_fexp prec emax X e l = shr (shr_record_of_loc X l) e (d - prec).
Proof.
  intros Hd HX Hp He. unfold shr_fexp. rewrite Hd, fexp_normal by exact He.
  f_equal. lia.
Qed.

(** Rounding a mantissa of known size when no carry occurs. *)
Lemma round_aux_spec (s : bool) (X e : Z) (l : location) (d : Z) :
  Zdigits2 X = d -> 0 <= X -> prec <= d -> emin <= d + e - prec ->
  let mrs := fst (shr (shr_record_of_loc X l) e (d - prec)) in
  let R := round_nearest_even (shr_m mrs) (loc_of_shr_record mrs) in
  2 ^ (prec - 1) <= R < 2 ^ prec ->
  binary_round_aux prec emax s X e l
  = if e + (d - prec) <=? emax - prec
    then S754_finite s (Z.to_pos R) (e + (d - prec))
    else S754_infinity s.
Proof.
  intros Hd HX Hp He mrs R HR.
  unfold binary_round_aux. rewrite (shr_fexp_spec X e l d Hd HX Hp He).
  destruct (shr_spec (shr_record_of_loc X l) e (d - prec)) as [_ He'].
  { destruct (loc_record_loc X l) as [_ ->]. exact HX. }
  { lia. }
  destruct (shr (shr_record_of_loc X l) e (d - prec)) as [mrs' e'] eqn:E.
  cbn [fst snd] in *. subst mrs e'. fold R.
  assert (HdR : Zdigits2 R = prec) by (apply Zdigits2_bounds; lia).
  assert (HRpos : 0 < R).
  { assert (0 < 2 ^ (prec - 1)) by (apply Z.pow_pos_nonneg; lia). lia. }
  rewrite (shr_fexp_spec R _ loc_Exact prec HdR) by lia.
  rewrite Z.sub_diag. cbn [shr shr_record_of_loc shr_m].
  destruct R as [| r | r]; try lia. reflexivity.
Qed.

(** The product of two positive finite floats whose exact product has
    [prec + k] digits and lies within one unit (at scale [2^k]) of [T]. *)
Lemma mul_near (m mq : positive) (e eQ k T : Z) :
  1 <= k ->
  2 ^ (prec + k - 1) <= Zpos m * Zpos mq < 2 ^ (prec + k) ->
  T - 1 <= Zpos m * Zpos mq / 2 ^ k <= T ->
  2 ^ (prec - 1) < T - 1 -> T + 1 < 2 ^ prec ->
  emin <= e + eQ + k -> e + eQ + k <= emax - prec ->
  exists x,
    SFmul prec emax (S754_finite false m e) (S754_finite false mq eQ)
    = S754_finite false x (e + eQ + k) /\
    T - 1 <= Zpos x <= T + 1.
Proof.
  intros Hk HX HF HTl HTh Hlo Hhi. cbn [SFmul xorb].
  change (Zpos (m * mq)) with (Zpos m * Zpos mq).
  set (X := Zpos m * Zpos mq) in *.
  assert (Hd : Zdigits2 X = prec + k).
  { apply Zdigits2_bounds; [lia | exact HX]. }
  assert (HX0 : 0 <= X) by (unfold X; lia).
  pose proof (round_aux_spec false X (e + eQ) loc_Exact (prec + k) Hd HX0) as Hr.
  replace (prec + k - prec) with k in Hr by lia.
  destruct (shr_spec (shr_record_of_loc X loc_Exact) (e + eQ) k) as [Hm _];
    [cbn; exact HX0 | lia |].
  change (shr_m (shr_record_of_loc X loc_Exact)) with X in Hm.
  set (mrs := fst (shr (shr_record_of_loc X loc_Exact) (e + eQ) k)) in *.
  cbn zeta in Hr.
  destruct (round_cases (shr_m mrs) (loc_of_shr_record mrs)) as [HR | HR].
  - rewrite Hr; [| lia | lia | rewrite HR, Hm; lia].
    replace (e + eQ + k <=? emax - prec) with true by (symmetry; apply Z.leb_le; lia).
    eexists. split; [reflexivity |]. rewrite HR, Hm, Z2Pos.id by lia. lia.
  - rewrite Hr; [| lia | lia | rewrite HR, Hm; lia].
    replace (e + eQ + k <=? emax - prec) with true by (symmetry; apply Z.leb_le; lia).
    eexists. split; [reflexivity |]. rewrite HR, Hm, Z2Pos.id by lia. lia.
Qed.

(** The integer division behind the quotient of two normal floats. *)
Lemma div_core_spec (tp m : positive) (et e : Z) :
  Zdigits2 (Zpos tp) = prec -> Zdigits2 (Zpos m) = prec ->
  emin <= et - e - prec ->
  SFdiv_core_binary prec emax (Zpos tp) et (Zpos m) e
  = (Zpos tp * 2 ^ prec / Zpos m, et - e - prec,
     new_location (Zpos m) ((Zpos tp * 2 ^ prec) mod Zpos m)).
Proof.
  intros Ht Hm He. unfold SFdiv_core_binary. rewrite Ht, Hm.
  replace (prec + et - (prec + e)) with (et - e) by lia.
  rewrite fexp_normal by exact He.
  rewrite Z.min_l by lia.
  replace (et - e - (et - e - prec)) with prec by lia.
  destruct prec as [| p | p] eqn:Ep; try lia.
  rewrite Z.shiftl_mul_pow2 by lia.
  unfold Z.div, Z.modulo.
  destruct (Z.div_eucl (Zpos tp * 2 ^ Zpos p) (Zpos m)). reflexivity.
Qed.

Variable tp : positive.
Hypothesis tp_value : Zpos tp = 5 * 2 ^ (prec - 3).

Let P := 2 ^ (prec - 3).
Let et := 4 - prec.

(** The mantissa of ten is [5 * 2^(prec-3)]; the binades around it. *)
Lemma P_facts :
  4 <= P /\ Zpos tp = 5 * P /\ 2 ^ (prec - 1) = 4 * P /\ 2 ^ prec = 8 * P /\
  2 ^ (prec + 1) = 16 * P.
Proof.
  unfold P.
  assert (H4 : 2 ^ 2 <= 2 ^ (prec - 3)) by (apply Z.pow_le_mono_r; lia).
  change (2 ^ 2) with 4 in H4.
  replace (prec - 1) with (2 + (prec - 3)) by lia.
  replace (2 ^ prec) with (2 ^ (3 + (prec - 3))) by (f_equal; lia).
  replace (prec + 1) with (4 + (prec - 3)) by lia.
  rewrite !Z.pow_add_r by lia.
  change (2 ^ 2) with 4. change (2 ^ 3) with 8. change (2 ^ 4) with 16.
  repeat split; try lia; exact tp_value.
Qed.

(** The quotient 10 / M for a normal positive M: infinite, or a float [mq]
    of full precision whose product with M's mantissa is close to
    [N = tp * 2^prec], at the scale given by the exponent. *)
Lemma div_ten (m : positive) (e : Z) :
  2 ^ (prec - 1) <= Zpos m < 2 ^ prec ->
  e <= emax - prec ->
  SFdiv prec emax (S754_finite false tp et) (S754_finite false m e)
  = S754_infinity false \/
  exists mq eQ,
    SFdiv prec emax (S754_finite false tp et) (S754_finite false m e)
    = S754_finite false mq eQ /\
    ((Zpos tp < Zpos m /\ eQ = et - e - prec /\
      Zpos tp * 2 ^ prec - Zpos m < Zpos m * Zpos mq < Zpos tp * 2 ^ prec + Zpos m) \/
     (Zpos m <= Zpos tp /\ eQ = et - e - prec + 1 /\
      Zpos tp * 2 ^ prec - Zpos m <= 2 * (Zpos m * Zpos mq)
      <= Zpos tp * 2 ^ prec + Zpos m)).
Proof.
  intros Hm He.
  destruct P_facts as (HP & Ht & H1 & H2 & H3).
  rewrite H1, H2 in Hm.
  assert (Hdt : Zdigits2 (Zpos tp) = prec).
  { apply Zdigits2_bounds; [lia |]. rewrite H1, H2, Ht. lia. }
  assert (Hdm : Zdigits2 (Zpos m) = prec).
  { apply Zdigits2_bounds; [lia |]. rewrite H1, H2. lia. }
  assert (Hun : emin <= et - e - prec).
  { unfold emin, SpecFloat.emin, et. lia. }
  cbn [SFdiv xorb]. rewrite (div_core_spec tp m et e Hdt Hdm Hun).
  rewrite H2, Ht.
  set (N := 5 * P * (8 * P)).
  pose proof (Z.div_mod N (Zpos m)) as Hdiv.
  pose proof (Z.mod_pos_bound N (Zpos m)) as Hrem.
  set (q := N / Zpos m) in *. set (rem := N mod Zpos m) in *.
  assert (HN : N = Zpos m * q + rem) by (apply Hdiv; lia).
  assert (Hr : 0 <= rem < Zpos m) by (apply Hrem; lia).
  clear Hdiv Hrem. clearbody q rem.
  assert (Hloc : new_location (Zpos m) rem = loc_Exact <-> rem = 0)
    by apply new_location_exact.
  set (l := new_location (Zpos m) rem) in *. clearbody l.
  destruct (Z_lt_le_dec (5 * P) (Zpos m)) as [HB | HA].
  - (* the quotient has [prec] digits *)
    assert (Hq : 5 * P <= q <= 8 * P - 2) by (unfold N in HN; nia).
    assert (Hdq : Zdigits2 q = prec).
    { apply Zdigits2_bounds; [lia |]. rewrite H1, H2. lia. }
    pose proof (round_aux_spec false q (et - e - prec) l prec Hdq) as Hr0.
    rewrite Z.sub_diag in Hr0. cbn [shr fst] in Hr0.
    destruct (loc_record_loc q l) as [Hl Hmq]. rewrite Hl, Hmq in Hr0.
    cbn zeta in Hr0. rewrite Z.add_0_r in Hr0.
    assert (HR : (round_nearest_even q l = q /\ True) \/
                 (round_nearest_even q l = q + 1 /\ rem <> 0)).
    { destruct l as [| c] eqn:El.
      - left. split; [reflexivity | exact I].
      - destruct (round_cases q (loc_Inexact c)) as [-> | ->]; [left | right];
          split; try reflexivity; try exact I.
        intros H0. apply Hloc in H0. discriminate H0. }
    rewrite Hr0; [| lia | lia | lia |].
    2:{ rewrite H1, H2. destruct HR as [[-> _] | [-> _]]; lia. }
    destruct (et - e - prec <=? emax - prec); [right | left; reflexivity].
    eexists _, _. split; [reflexivity |]. left.
    split; [lia |]. split; [reflexivity |].
    fold N. rewrite Z2Pos.id by (destruct HR as [[-> _] | [-> _]]; lia).
    destruct HR as [[-> _] | [-> Hne]]; nia.
  - (* the quotient has [prec + 1] digits and is shifted once *)
    assert (Hq : 8 * P <= q <= 10 * P) by (unfold N in HN; nia).
    assert (Hdq : Zdigits2 q = prec + 1).
    { apply Zdigits2_bounds; [lia |]. replace (prec + 1 - 1) with prec by lia.
      rewrite H2, H3. lia. }
    pose proof (round_aux_spec false q (et - e - prec) l (prec + 1) Hdq) as Hr0.
    replace (prec + 1 - prec) with 1 in Hr0 by lia.
    cbn [shr iter_pos fst] in Hr0. cbn zeta in Hr0.
    set (R := round_nearest_even (shr_m (shr_1 (shr_record_of_loc q l)))
                (loc_of_shr_record (shr_1 (shr_record_of_loc q l)))) in *.
    assert (HR : 4 * P <= R <= 5 * P + 1 /\ N - Zpos m <= 2 * (Zpos m * R) <= N + Zpos m).
    { unfold R. destruct q as [| [h | h |] |]; try lia.
      - (* odd quotient *)
        destruct l as [| [| |]] eqn:El;
          cbn [shr_1 shr_record_of_loc shr_m loc_of_shr_record round_nearest_even orb];
          rewrite Pos2Z.inj_xI in HN, Hq.
        + assert (rem = 0) by (apply Hloc; reflexivity).
          destruct (Z.even (Zpos h)); nia.
        + assert (rem <> 0) by (intros H0; apply Hloc in H0; discriminate H0). nia.
        + assert (rem <> 0) by (intros H0; apply Hloc in H0; discriminate H0). nia.
        + assert (rem <> 0) by (intros H0; apply Hloc in H0; discriminate H0). nia.
      - (* even quotient *)
        destruct l as [| [| |]] eqn:El;
          cbn [shr_1 shr_record_of_loc shr_m loc_of_shr_record round_nearest_even orb];
          rewrite Pos2Z.inj_xO in HN, Hq; nia. }
    destruct HR as [HRb HRn].
    rewrite Hr0; [| lia | lia | lia | rewrite H1, H2; lia].
    destruct (et - e - prec + 1 <=? emax - prec); [right | left; reflexivity].
    eexists _, _. split; [reflexivity |]. right.
    split; [lia |]. split; [reflexivity |].
    fold N. rewrite Z2Pos.id by lia. exact HRn.
Qed.

Lemma emin_below_et : emin <= et /\ et <= emax - prec.
Proof. unfold emin, SpecFloat.emin, et. lia. Qed.

(** The rounded product M * (10 / M) for a normal positive M: infinite
    (when the quotient overflows), or within one unit in the last place of
    ten. *)
Lemma product_near_ten (m : positive) (e : Z) :
  2 ^ (prec - 1) <= Zpos m < 2 ^ prec ->
  e <= emax - prec ->
  let M := S754_finite false m e in
  let nvalue := SFmul prec emax M (SFdiv prec emax (S754_finite false tp et) M) in
  nvalue = S754_infinity false \/
  exists x, nvalue = S754_finite false x et /\ Zpos tp - 1 <= Zpos x <= Zpos tp + 1.
Proof.
  intros Hm He M nvalue. unfold nvalue, M.
  destruct (div_ten m e Hm He) as [-> | (mq & eQ & -> & Hcase)];
    [left; reflexivity | right].
  destruct P_facts as (HP & Ht & H1 & H2 & H3).
  destruct emin_below_et as [Hlo Hhi].
  rewrite H1, H2 in Hm. rewrite H2, Ht in Hcase. rewrite Ht.
  destruct Hcase as [(HB & -> & Hn) | (HA & -> & Hn)].
  - destruct (mul_near m mq e (et - e - prec) prec (5 * P)) as (x & Hx & Hb).
    + lia.
    + replace (prec + prec - 1) with ((prec - 1) + prec) by lia.
      rewrite !Z.pow_add_r, H1, H2 by lia. nia.
    + rewrite H2. split.
      * apply Z.div_le_lower_bound; nia.
      * apply Z.lt_succ_r. apply Z.div_lt_upper_bound; nia.
    + rewrite H1. lia.
    + rewrite H2. lia.
    + lia.
    + lia.
    + exists x. split; [| exact Hb]. rewrite Hx. f_equal. lia.
  - destruct (mul_near m mq e (et - e - prec + 1) (prec - 1) (5 * P)) as (x & Hx & Hb).
    + lia.
    + replace (prec + (prec - 1) - 1) with ((prec - 1) + (prec - 1)) by lia.
      replace (prec + (prec - 1)) with ((prec - 1) + prec) by lia.
      rewrite !Z.pow_add_r, H1, H2 by lia. nia.
    + rewrite H1. split.
      * apply Z.div_le_lower_bound; nia.
      * apply Z.lt_succ_r. apply Z.div_lt_upper_bound; nia.
    + rewrite H1. lia.
    + rewrite H2. lia.
    + lia.
    + lia.
    + exists x. split; [| exact Hb]. rewrite Hx. f_equal. lia.
Qed.

(** A positive mantissa of at least [prec] digits at an exponent beyond the
    largest one rounds to infinity. *)
Lemma round_aux_overflow (s : bool) (x : positive) (e : Z) (l : location) :
  prec <= Zdigits2 (Zpos x) -> emax - prec < e ->
  binary_round_aux prec emax s (Zpos x) e l = S754_infinity s.
Proof.
  intros Hd He.
  destruct (Zdigits2_spec x) as [_ Hx].
  set (d := Zdigits2 (Zpos x)) in *.
  assert (Hun : emin <= d + e - prec) by (unfold emin, SpecFloat.emin; lia).
  unfold binary_round_aux.
  rewrite (shr_fexp_spec (Zpos x) e l d eq_refl) by lia.
  destruct (shr_spec (shr_record_of_loc (Zpos x) l) e (d - prec)) as [Hm He'].
  { destruct (loc_record_loc (Zpos x) l) as [_ ->]. lia. }
  { lia. }
  destruct (loc_record_loc (Zpos x) l) as [_ Hmx]. rewrite Hmx in Hm.
  destruct (shr (shr_record_of_loc (Zpos x) l) e (d - prec)) as [mrs e'].
  cbn [fst snd] in Hm, He'.
  assert (HF : 2 ^ (prec - 1) <= shr_m mrs < 2 ^ prec).
  { rewrite Hm. split.
    - apply Z.div_le_lower_bound; [apply Z.pow_pos_nonneg; lia |].
      rewrite <- Z.pow_add_r by lia. replace (d - prec + (prec - 1)) with (d - 1) by lia.
      lia.
    - apply Z.div_lt_upper_bound; [apply Z.pow_pos_nonneg; lia |].
      rewrite <- Z.pow_add_r by lia. replace (d - prec + prec) with d by lia. lia. }
  set (R := round_nearest_even (shr_m mrs) (loc_of_shr_record mrs)).
  assert (HR : 2 ^ (prec - 1) <= R <= 2 ^ prec).
  { unfold R. destruct (round_cases (shr_m mrs) (loc_of_shr_record mrs)) as [-> | ->]; lia. }
  assert (Hpow : 0 < 2 ^ (prec - 1)) by (apply Z.pow_pos_nonneg; lia).
  assert (Hdbl : 2 ^ prec = 2 * 2 ^ (prec - 1)).
  { replace prec with (1 + (prec - 1)) at 1 by lia. rewrite Z.pow_add_r by lia.
    reflexivity. }
  destruct (Z_lt_le_dec R (2 ^ prec)) as [Hlt | Hge].
  - assert (HdR : Zdigits2 R = prec) by (apply Zdigits2_bounds; lia).
    rewrite (shr_fexp_spec R e' loc_Exact prec HdR) by lia.
    rewrite Z.sub_diag. cbn [shr shr_record_of_loc shr_m].
    destruct R as [| r | r]; try lia.
    replace (e' <=? emax - prec) with false by (symmetry; apply Z.leb_gt; lia).
    reflexivity.
  - assert (HReq : R = 2 ^ prec) by lia.
    assert (HdR : Zdigits2 R = prec + 1).
    { apply Zdigits2_bounds; [lia |]. replace (prec + 1 - 1) with prec by lia.
      rewrite HReq. split; [lia |]. apply Z.pow_lt_mono_r; lia. }
    rewrite (shr_fexp_spec R e' loc_Exact (prec + 1) HdR) by lia.
    destruct (shr_spec (shr_record_of_loc R loc_Exact) e' (prec + 1 - prec))
      as [Hm2 He2]; [cbn; lia | lia |].
    destruct (shr (shr_record_of_loc R loc_Exact) e' (prec + 1 - prec)) as [mrs2 e2].
    cbn [fst snd shr_record_of_loc shr_m] in Hm2, He2.
    replace (prec + 1 - prec) with 1 in Hm2 by lia.
    assert (Hm2' : shr_m mrs2 = 2 ^ (prec - 1)).
    { rewrite Hm2, HReq, Hdbl. change (2 ^ 1) with 2.
      rewrite Z.mul_comm, Z.div_mul by lia. reflexivity. }
    rewrite Hm2'. destruct (2 ^ (prec - 1)) as [| r | r]; try lia.
    replace (e2 <=? emax - prec) with false by (symmetry; apply Z.leb_gt; lia).
    reflexivity.
Qed.

(** 10 / M overflows for a subnormal positive M. *)
Lemma div_ten_subnormal (m : positive) :
  Zdigits2 (Zpos m) < prec ->
  SFdiv prec emax (S754_finite false tp et) (S754_finite false m emin)
  = S754_infinity false.
Proof.
  intros Hd.
  destruct P_facts as (HP & Ht & H1 & H2 & H3).
  destruct (Zdigits2_spec m) as [Hd1 Hm].
  set (d := Zdigits2 (Zpos m)) in *.
  assert (Hdt : Zdigits2 (Zpos tp) = prec).
  { apply Zdigits2_bounds; [lia |]. rewrite H1, H2, Ht. lia. }
  cbn [SFdiv xorb]. unfold SFdiv_core_binary. rewrite Hdt. fold d.
  assert (Hfe : fexp prec emax (prec + et - (d + emin)) = et - emin - d).
  { rewrite fexp_normal; [lia |]. unfold emin, SpecFloat.emin, et. lia. }
  rewrite Hfe, Z.min_l by lia.
  replace (et - emin - (et - emin - d)) with d by lia.
  destruct d as [| dp | dp] eqn:Ed; try lia.
  rewrite Z.shiftl_mul_pow2 by lia.
  pose proof (Z.div_mod (Zpos tp * 2 ^ Zpos dp) (Zpos m)) as Hdiv.
  pose proof (Z.mod_pos_bound (Zpos tp * 2 ^ Zpos dp) (Zpos m)) as Hrem.
  unfold Z.div, Z.modulo in Hdiv, Hrem.
  destruct (Z.div_eucl (Zpos tp * 2 ^ Zpos dp) (Zpos m)) as [q rem].
  assert (HN : Zpos tp * 2 ^ Zpos dp = Zpos m * q + rem) by (apply Hdiv; lia).
  assert (Hr : 0 <= rem < Zpos m) by (apply Hrem; lia).
  assert (Hq : Zpos tp <= q) by nia.
  destruct q as [| qp | qp]; try lia.
  apply round_aux_overflow.
  - destruct (Zdigits2_spec qp) as [_ [_ Hqh]].
    destruct (Z_lt_le_dec (Zdigits2 (Zpos qp)) prec) as [Hlt | Hge]; [| exact Hge].
    exfalso.
    assert (2 ^ Zdigits2 (Zpos qp) <= 2 ^ (prec - 1)) by (apply Z.pow_le_mono_r; lia).
    lia.
  - unfold emin, SpecFloat.emin, et in *. lia.
Qed.

Variable hp : positive.
Variable eh : Z.
Hypothesis ten_value : IEEE.ten prec emax = S754_finite false tp et.
Hypothesis half_value : IEEE.half prec emax = S754_finite false hp eh.
Hypothesis half_small : eh < et.

Ltac exp_lt H :=
  repeat match goal with
  | |- context [match ?c with Eq => _ | Lt => Lt | Gt => Gt end] =>
      let Hc := fresh "Hc" in
      assert (Hc : c = Lt) by (apply Z.compare_lt_iff; exact H);
      rewrite Hc; clear Hc
  end.

Ltac exp_eq :=
  repeat match goal with
  | |- context [match ?c with Eq => _ | Lt => Lt | Gt => Gt end] =>
      let Hc := fresh "Hc" in
      assert (Hc : c = Eq) by apply Z.compare_refl;
      rewrite Hc; clear Hc
  end.

(** A NaN or an infinite product is drawn with width ten. *)
Lemma clip_special :
  IEEE.clip prec emax S754_nan = IEEE.ten prec emax /\
  IEEE.clip prec emax (S754_infinity false) = IEEE.ten prec emax.
Proof.
  unfold IEEE.clip, IEEE.py_min, IEEE.py_max. rewrite ten_value, half_value.
  cbn [SFltb SFcompare]. exp_lt half_small. split; reflexivity.
Qed.

(** A product within one unit in the last place of ten is clipped to
    ten, unless it is the float just below ten, which is kept. *)
Lemma clip_near (x : positive) :
  Zpos tp - 1 <= Zpos x <= Zpos tp + 1 ->
  IEEE.clip prec emax (S754_finite false x et) = IEEE.ten prec emax \/
  (x = Pos.pred tp /\
   IEEE.clip prec emax (S754_finite false x et) = S754_finite false x et).
Proof.
  intros Hx. unfold IEEE.clip, IEEE.py_min, IEEE.py_max.
  rewrite ten_value, half_value. cbn [SFltb SFcompare].
  exp_eq.
  change (PosDef.Pos.compare_cont Eq x tp) with (Pos.compare x tp).
  destruct (Pos.compare_spec x tp) as [Heq | Hlt | Hgt];
    cbn [SFltb SFcompare]; exp_lt half_small.
  - left. reflexivity.
  - right. split; [lia | reflexivity].
  - left. reflexivity.
Qed.

(** The width computed for a positive maximum: ten, or the float just below
    ten when the rounded product is that float. *)
Lemma width_of_a_maximum (M : spec_float) :
  valid_binary prec emax M = true ->
  SFltb (S754_zero false) M = true ->
  IEEE.clip prec emax (IEEE.scaled prec emax M M) = IEEE.ten prec emax \/
  (IEEE.scaled prec emax M M = S754_finite false (Pos.pred tp) et /\
   IEEE.clip prec emax (IEEE.scaled prec emax M M)
   = S754_finite false (Pos.pred tp) et).
Proof.
  intros Hv Hpos. destruct clip_special as [Hnan Hinf].
  unfold IEEE.scaled. rewrite ten_value. rewrite ten_value in Hnan, Hinf.
  destruct M as [s | s | | s m e]; try discriminate Hpos.
  - (* +infinity *)
    destruct s; [discriminate Hpos |]. left. exact Hnan.
  - destruct s; [discriminate Hpos |].
    cbn [valid_binary] in Hv. unfold bounded, canonical_mantissa in Hv.
    apply andb_true_iff in Hv as [Hc Hb].
    apply Z.eqb_eq in Hc. apply Z.leb_le in Hb.
    change (Zpos (digits2_pos m)) with (Zdigits2 (Zpos m)) in Hc.
    destruct (Zdigits2_spec m) as [Hd1 Hm].
    unfold fexp in Hc. fold emin in Hc.
    destruct (Z_lt_le_dec (Zdigits2 (Zpos m)) prec) as [Hsub | Hnorm].
    + (* subnormal *)
      assert (He : e = emin) by lia. subst e.
      rewrite (div_ten_subnormal m Hsub). left. exact Hinf.
    + (* normal *)
      assert (Hd : Zdigits2 (Zpos m) = prec) by lia.
      rewrite Hd in Hm.
      destruct (product_near_ten m e Hm Hb) as [Hp | (x & Hp & Hx)];
        cbn zeta in Hp; rewrite Hp.
      * left. exact Hinf.
      * destruct (clip_near x Hx) as [Hc' | [-> Hc']];
          [left; rewrite <- ten_value; exact Hc' |].
        right. split; [reflexivity | exact Hc'].
Qed.

End Rounding.


(** In binary64 ten is [5629499534213120 * 2^-49] and the float below it
    is [5629499534213119 * 2^-49] = 9.999999999999998. *)
Lemma binary64_width_of_a_maximum (M : spec_float) :
  valid_binary 53 1024 M = true ->
  SFltb (S754_zero false) M = true ->
  IEEE.clip 53 1024 (IEEE.scaled 53 1024 M M) = IEEE.ten 53 1024 \/
  (IEEE.scaled 53 1024 M M = S754_finite false 5629499534213119 (-49) /\
   IEEE.clip 53 1024 (IEEE.scaled 53 1024 M M)
   = S754_finite false 5629499534213119 (-49)).
Proof.
  apply (width_of_a_maximum 53 1024 ltac:(lia) ltac:(lia) 5629499534213120%positive
           eq_refl 4503599627370496%positive (-53)%Z eq_refl eq_refl eq_refl).
Qed.

(** In binary32 ten is [10485760 * 2^-20] and the float below it is
    [10485759 * 2^-20] = 9.999999. *)
Lemma binary32_width_of_a_maximum (M : spec_float) :
  valid_binary 24 128 M = true ->
  SFltb (S754_zero false) M = true ->
  IEEE.clip 24 128 (IEEE.scaled 24 128 M M) = IEEE.ten 24 128 \/
  (IEEE.scaled 24 128 M M = S754_finite false 10485759 (-20) /\
   IEEE.clip 24 128 (IEEE.scaled 24 128 M M)
   = S754_finite false 10485759 (-20)).
Proof.
  apply (width_of_a_maximum 24 128 ltac:(lia) ltac:(lia) 10485760%positive
           eq_refl 8388608%positive (-24)%Z eq_refl eq_refl eq_refl).
Qed.

(** C6, as the arithmetic allows.  Feeding a positive maximum [M] itself
    through the significant-tier width expression
    [max(0.5, min(10., M * (10 / M)))] yields exactly 10 when the
    arithmetic is exact.  In binary64 and in binary32, for every positive
    float [M] of the format, it yields exactly 10.0 or, when the rounded
    product [M * (10 / M)] is the float just below 10.0, that float. *)
Theorem maximum_maps_to_full_width_or_the_float_below :
  (forall M : Q, 0 < M ->
     (nn <- Renderer.clip (Renderer.scaled M [M]) ;; to_scalar nn) = Ok 10) /\
  (forall M : spec_float,
     valid_binary 53 1024 M = true ->
     SFltb (S754_zero false) M = true ->
     IEEE.clip 53 1024 (IEEE.scaled 53 1024 M M) = IEEE.ten 53 1024 \/
     (IEEE.scaled 53 1024 M M = S754_finite false 5629499534213119 (-49) /\
      IEEE.clip 53 1024 (IEEE.scaled 53 1024 M M)
      = S754_finite false 5629499534213119 (-49))) /\
  (forall M : spec_float,
     valid_binary 24 128 M = true ->
     SFltb (S754_zero false) M = true ->
     IEEE.clip 24 128 (IEEE.scaled 24 128 M M) = IEEE.ten 24 128 \/
     (IEEE.scaled 24 128 M M = S754_finite false 10485759 (-20) /\
      IEEE.clip 24 128 (IEEE.scaled 24 128 M M)
      = S754_finite false 10485759 (-20))).
Proof.
  split; [| split].
  - intros M HM. apply (exact_maximum_maps_to_full_width M HM).
  - exact binary64_width_of_a_maximum.
  - exact binary32_width_of_a_maximum.
Qed.

Lemma maximum_maps_to_full_width_or_the_float_below_witness :
  0 < 45535301 # 1000000 /\
  (nn <- Renderer.clip (Renderer.scaled (45535301 # 1000000) [45535301 # 1000000]) ;;
   to_scalar nn) = Ok 10 /\
  valid_binary 53 1024 (IEEE.lit 53 1024 77 (-3)) = true /\
  SFltb (S754_zero false) (IEEE.lit 53 1024 77 (-3)) = true /\
  (IEEE.clip 53 1024
     (IEEE.scaled 53 1024 (IEEE.lit 53 1024 77 (-3)) (IEEE.lit 53 1024 77 (-3)))
   = IEEE.ten 53 1024 \/
   (IEEE.scaled 53 1024 (IEEE.lit 53 1024 77 (-3)) (IEEE.lit 53 1024 77 (-3))
    = S754_finite false 5629499534213119 (-49) /\
    IEEE.clip 53 1024
      (IEEE.scaled 53 1024 (IEEE.lit 53 1024 77 (-3)) (IEEE.lit 53 1024 77 (-3)))
    = S754_finite false 5629499534213119 (-49))) /\
  valid_binary 24 128 (IEEE.lit 24 128 45535301 (-20)) = true /\
  SFltb (S754_zero false) (IEEE.lit 24 128 45535301 (-20)) = true /\
  (IEEE.clip 24 128
     (IEEE.scaled 24 128 (IEEE.lit 24 128 45535301 (-20)) (IEEE.lit 24 128 45535301 (-20)))
   = IEEE.ten 24 128 \/
   (IEEE.scaled 24 128 (IEEE.lit 24 128 45535301 (-20)) (IEEE.lit 24 128 45535301 (-20))
    = S754_finite false 10485759 (-20) /\
    IEEE.clip 24 128
      (IEEE.scaled 24 128 (IEEE.lit 24 128 45535301 (-20)) (IEEE.lit 24 128 45535301 (-20)))
    = S754_finite false 10485759 (-20))).
Proof.
  destruct maximum_maps_to_full_width_or_the_float_below as (Hq & H64 & H32).
  split; [reflexivity |].
  split; [apply (Hq (45535301 # 1000000)); reflexivity |].
  split; [vm_compute; reflexivity |].
  split; [vm_compute; reflexivity |].
  split; [apply (H64 (IEEE.lit 53 1024 77 (-3))); vm_compute; reflexivity |].
  split; [vm_compute; reflexivity |].
  split; [vm_compute; reflexivity |].
  apply (H32 (IEEE.lit 24 128 45535301 (-20))); vm_compute; reflexivity.
Defined.

(** * Further properties of the notebook's code *)

(** ** How a table is built *)

Lemma build_detailed_unfold (xd : Dataset) :
  build_detailed xd = build "Y2_fYG3c" detailed_flux_cells xd.
Proof. reflexivity. Qed.

Lemma build_simplified_unfold (xe : Dataset) :
  build_simplified xe = build "Q6_c" simplified_flux_cells xe.
Proof. reflexivity. Qed.

Lemma exec_is_set (xd : Dataset) (df df' : DataFrame) (s : stmt) :
  exec xd df s = Ok df' -> exists a, df_set df (stmt_code s) a = Ok df'.
Proof.
  destruct s as [code var | code var loss k1 k2 p0 ps]; cbn [exec stmt_code]; intros H.
  - apply bind_ok in H as (a & _ & H). eauto.
  - apply bind_ok in H as (raw & _ & H). apply bind_ok in H as (l & _ & H).
    apply bind_ok in H as (t1 & _ & H). apply bind_ok in H as (c0 & _ & H).
    apply bind_ok in H as (sm & _ & H). apply bind_ok in H as (t2 & _ & H).
    eauto.
Qed.

Lemma put_fresh (k : string) (v : list Q) (l : list (string * list Q)) :
  ~ In k (map fst l) -> put k v l = (l ++ [(k, v)])%list.
Proof.
  induction l as [| [k' v'] l IH]; cbn; intros Hn; [reflexivity |].
  destruct (String.eqb_spec k' k) as [-> | Hne]; [tauto |].
  rewrite IH by tauto. reflexivity.
Qed.

Lemma put_all (P : string * list Q -> Prop) (k : string) (v : list Q)
      (l : list (string * list Q)) :
  P (k, v) -> Forall P l -> Forall P (put k v l).
Proof.
  intros Hv Hl. induction Hl as [| [k' v'] l Hh Hl IH]; cbn.
  - constructor; [exact Hv | constructor].
  - destruct (String.eqb k' k); constructor; assumption.
Qed.

Lemma exec_shape (xd : Dataset) (df df' : DataFrame) (s : stmt) :
  exec xd df s = Ok df' ->
  index df' = index df /\
  (well_formed df -> well_formed df') /\
  (~ In (stmt_code s) (column_labels df) ->
   column_labels df' = (column_labels df ++ [stmt_code s])%list).
Proof.
  intros H. apply exec_is_set in H as (a & H). unfold df_set in H.
  destruct (Nat.eqb_spec (List.length a) (List.length (index df))) as [Hl |];
    [| discriminate].
  injection H as <-. unfold well_formed, column_labels. cbn [index columns].
  split; [reflexivity | split].
  - intros Hwf. apply put_all; [exact Hl | exact Hwf].
  - intros Hn. rewrite put_fresh by exact Hn. rewrite map_app. reflexivity.
Qed.

Lemma run_shape (xd : Dataset) (prog : list stmt) :
  forall df df',
  NoDup (map stmt_code prog) ->
  (forall s, In s prog -> ~ In (stmt_code s) (column_labels df)) ->
  run xd df prog = Ok df' ->
  index df' = index df /\
  (well_formed df -> well_formed df') /\
  column_labels df' = (column_labels df ++ map stmt_code prog)%list.
Proof.
  induction prog as [| s prog IH]; cbn [run map]; intros df df' Hnd Hfresh H.
  - injection H as <-. rewrite app_nil_r. tauto.
  - apply bind_ok in H as (df1 & H1 & H).
    apply exec_shape in H1 as (Hi & Hwf & Hlab).
    specialize (Hlab (Hfresh s (or_introl eq_refl))).
    inversion Hnd as [| c cs Hnotin Hnd']; subst.
    destruct (IH df1 df' Hnd') as (Hi' & Hwf' & Hlab').
    + intros s' Hin. rewrite Hlab. intros Hin'.
      apply in_app_or in Hin' as [Hin' | [Heq | []]].
      * apply (Hfresh s' (or_intror Hin)). exact Hin'.
      * apply Hnotin. rewrite Heq. now apply in_map.
    + exact H.
    + split; [congruence | split; [tauto |]].
      rewrite Hlab', Hlab, <- app_assoc. reflexivity.
Qed.

Lemma build_shape (fv : string) (cells : list stmt) (xd : Dataset) (df : DataFrame) :
  NoDup (map stmt_code cells) ->
  build fv cells xd = Ok df ->
  column_labels df = map stmt_code cells /\
  index df = time xd /\
  well_formed df.
Proof.
  intros Hnd H. unfold build, new_frame in H.
  apply bind_ok in H as (df0 & H0 & H).
  apply bind_ok in H0 as (t0 & _ & H0). injection H0 as <-.
  apply run_shape in H as (Hi & Hwf & Hlab); [| exact Hnd | intros s _ []].
  cbn in Hi, Hlab. repeat split; try assumption. apply Hwf. constructor.
Qed.

Lemma codes_distinct (cells : list stmt) :
  nodup string_dec (map stmt_code cells) = map stmt_code cells ->
  NoDup (map stmt_code cells).
Proof. intros <-. apply NoDup_nodup. Qed.

(** Each of the four tables has its columns in the order the cells assign
    them, each label once, is indexed by the dataset's time coordinate, and
    has one entry per timestamp in every column. *)
Theorem tables_follow_the_cells (xd : Dataset) (df : DataFrame) :
  (build_detailed xd = Ok df ->
   column_labels df = map stmt_code detailed_flux_cells /\
   index df = time xd /\ well_formed df) /\
  (build_simplified xd = Ok df ->
   column_labels df = map stmt_code simplified_flux_cells /\
   index df = time xd /\ well_formed df) /\
  (build_stock_detailed xd = Ok df ->
   column_labels df = ["Q1"; "Q6"; "Q7"; "H1"; "H2"; "Y2"; "Y3"; "Y4"; "G3"] /\
   index df = time xd /\ well_formed df) /\
  (build_stock_simplified xd = Ok df ->
   column_labels df = ["Q1"; "Q6"; "Q7"] /\
   index df = time xd /\ well_formed df).
Proof.
  split; [| split; [| split]]; intros H;
    (apply build_shape in H; [exact H | apply codes_distinct; reflexivity]).
Qed.

Lemma tables_follow_the_cells_witness :
  exists df, build_detailed sample_dataset = Ok df /\
    column_labels df = map stmt_code detailed_flux_cells /\
    index df = time sample_dataset /\ well_formed df.
Proof.
  assert (Hrun : exists df, build_detailed sample_dataset = Ok df)
    by (eexists; vm_compute; reflexivity).
  destruct Hrun as [df Hrun]. exists df. split; [exact Hrun |].
  apply (tables_follow_the_cells sample_dataset df). exact Hrun.
Defined.

Lemma notin_writes_elsewhere (k : string) (prog : list stmt) :
  ~ In k (map stmt_code prog) -> writes_elsewhere k prog = true.
Proof.
  unfold writes_elsewhere.
  induction prog as [| s prog IH]; cbn; intros Hn; [reflexivity |].
  rewrite IH by tauto.
  destruct (String.eqb_spec (stmt_code s) k); [tauto | reflexivity].
Qed.

Lemma run_copy (xd : Dataset) (prog : list stmt) (code var : string) :
  forall df df',
  NoDup (map stmt_code prog) ->
  In (Copy code var) prog ->
  run xd df prog = Ok df' ->
  exists a, xd_var xd var = Ok a /\ df_col df' code = Ok a.
Proof.
  induction prog as [| s prog IH]; cbn [run map]; intros df df' Hnd Hin H;
    [destruct Hin |].
  inversion Hnd as [| c cs Hnotin Hnd']; subst.
  apply bind_ok in H as (df1 & H1 & H).
  destruct Hin as [-> | Hin].
  - cbn [exec stmt_code] in *. apply bind_ok in H1 as (a & Ha & H1).
    apply df_set_ok in H1 as (_ & _ & Hc & _).
    exists a. split; [exact Ha |].
    destruct (run_frame xd prog code (notin_writes_elsewhere _ _ Hnotin) _ _ H)
      as [_ Hk].
    congruence.
  - apply (IH df1 df' Hnd' Hin H).
Qed.

(** A column assigned from a dataset variable alone holds that variable's
    series unchanged in the finished table, in each of the four tables. *)
Theorem copied_columns_hold_the_dataset_series
        (xd : Dataset) (df : DataFrame) (fv code var : string) (cells : list stmt) :
  In (fv, cells)
     [("Y2_fYG3c", detailed_flux_cells); ("Q6_c", simplified_flux_cells);
      ("Y2_fYG3c", detailed_stock_cells); ("Q6_c", simplified_stock_cells)] ->
  build fv cells xd = Ok df ->
  In (Copy code var) cells ->
  exists a, xd_var xd var = Ok a /\ df_col df code = Ok a.
Proof.
  intros Htab H Hin.
  assert (Hnd : NoDup (map stmt_code cells)).
  { cbn in Htab. destruct Htab as [E | [E | [E | [E | []]]]]; injection E as <- <-;
      apply codes_distinct; reflexivity. }
  unfold build, new_frame in H.
  apply bind_ok in H as (df0 & _ & H).
  apply (run_copy xd cells code var df0 df Hnd Hin H).
Qed.

Lemma copied_columns_hold_the_dataset_series_witness :
  exists df, build_detailed sample_dataset = Ok df /\
    exists a, xd_var sample_dataset "Y2_fprey3c" = Ok a /\ df_col df "Q6Y2" = Ok a.
Proof.
  assert (Hrun : exists df, build_detailed sample_dataset = Ok df)
    by (eexists; vm_compute; reflexivity).
  destruct Hrun as [df Hrun]. exists df. split; [exact Hrun |].
  apply (copied_columns_hold_the_dataset_series sample_dataset df
           "Y2_fYG3c" "Q6Y2" "Y2_fprey3c" detailed_flux_cells).
  - left. reflexivity.
  - exact Hrun.
  - unfold detailed_flux_cells, deposit_feeder_prey.
    apply in_or_app. right. apply in_or_app. right. apply in_or_app. left.
    cbn. tauto.
Defined.

(** ** Missing variables *)

Lemma exec_missing (xd : Dataset) (df : DataFrame) (s : stmt) :
  lookup (stmt_var s) (variables xd) = None ->
  exec xd df s = Raise (AttributeError (stmt_var s)).
Proof.
  intros Hm. destruct s; cbn [exec stmt_var] in *; unfold xd_var; rewrite Hm;
    reflexivity.
Qed.

Lemma run_outcome (xd : Dataset) (prog : list stmt) :
  forall present df,
  ready present prog = true ->
  sized xd ->
  List.length (index df) = List.length (time xd) ->
  cols_ok present df ->
  match first_missing xd (map stmt_var prog) with
  | Some v => run xd df prog = Raise (AttributeError v)
  | None => returns (run xd df prog)
  end.
Proof.
  unfold first_missing.
  induction prog as [| s prog IH]; intros present df Hready Hsz Hlen Hok;
    cbn [map find run].
  - eexists. reflexivity.
  - cbn [ready] in Hready. apply andb_true_iff in Hready as [Hr Hready].
    destruct (lookup (stmt_var s) (variables xd)) as [a |] eqn:Hv.
    + destruct (exec_total xd df s present Hr) as [df1 H1]; [| exact Hok |].
      { exists a. split; [exact Hv |]. rewrite Hlen. apply (Hsz _ _ Hv). }
      rewrite H1. cbn [bind].
      destruct (exec_frame _ _ _ _ H1) as [Hidx _].
      apply (IH (stmt_code s :: present) df1 Hready Hsz).
      * congruence.
      * apply (exec_keeps_cols xd df df1 s present H1 Hok).
    + rewrite (exec_missing xd df s Hv). reflexivity.
Qed.

(** On a dataset whose series all run over the time coordinate, each of the
    four builders raises [AttributeError] for the first variable it reads
    that the dataset lacks (the frame's variable first, then the cells' in
    order), and returns a table when none is missing. *)
Theorem builders_stop_at_the_first_missing_variable
        (xd : Dataset) (fv : string) (cells : list stmt) :
  In (fv, cells)
     [("Y2_fYG3c", detailed_flux_cells); ("Q6_c", simplified_flux_cells);
      ("Y2_fYG3c", detailed_stock_cells); ("Q6_c", simplified_stock_cells)] ->
  sized xd ->
  (forall v, first_missing xd (fv :: map stmt_var cells) = Some v ->
             build fv cells xd = Raise (AttributeError v)) /\
  (first_missing xd (fv :: map stmt_var cells) = None ->
   returns (build fv cells xd)).
Proof.
  intros Htab Hsz.
  assert (Hready : ready [] cells = true).
  { cbn in Htab. destruct Htab as [E | [E | [E | [E | []]]]]; injection E as <- <-;
      reflexivity. }
  pose proof (run_outcome xd cells [] (mkFrame (time xd) []) Hready Hsz eq_refl) as Hrun.
  unfold build, new_frame, xd_var, first_missing in *. cbn [find].
  destruct (lookup fv (variables xd)) as [a |] eqn:Hfv; cbn [bind].
  - destruct (find _ (map stmt_var cells)) as [v |].
    + split; [| discriminate]. intros v' [= <-]. apply Hrun. intros c [].
    + split; [discriminate |]. intros _. apply Hrun. intros c [].
  - split; [| discriminate]. intros v [= <-]. reflexivity.
Qed.

Lemma builders_stop_at_the_first_missing_variable_witness :
  build_simplified (mkDataset [mkTimestamp 2016 1 1 0]
                              [("Q6_c", [4]); ("R4_dep1c", [1])])
  = Raise (AttributeError "R4_dep2c").
Proof.
  apply (builders_stop_at_the_first_missing_variable
           (mkDataset [mkTimestamp 2016 1 1 0] [("Q6_c", [4]); ("R4_dep1c", [1])])
           "Q6_c" simplified_flux_cells).
  - right. left. reflexivity.
  - intros v a. cbn [lookup variables time List.length].
    destruct (String.eqb "Q6_c" v); [intros E; inversion E; reflexivity |].
    destruct (String.eqb "R4_dep1c" v); [intros E; inversion E; reflexivity |].
    discriminate.
  - reflexivity.
Defined.

(** ** The return formulas *)

Lemma fold_left_Qplus_compat (l : list Q) (a b : Q) :
  a == b -> fold_left Qplus l a == fold_left Qplus l b.
Proof.
  revert a b. induction l as [| u l IH]; intros a b Hab; cbn; [exact Hab |].
  apply IH. rewrite Hab. reflexivity.
Qed.

Lemma sum_cols_rows (df : DataFrame) (names : list string) :
  forall acc r,
  sum_cols df acc names = Ok r ->
  exists cs,
    Forall2 (fun n c => df_col df n = Ok c) names cs /\
    List.length r = List.length acc /\
    forall i, nth i r 0 == fold_left Qplus (map (fun c => nth i c 0) cs) (nth i acc 0).
Proof.
  induction names as [| n names IH]; intros acc r H; cbn [sum_cols] in H.
  - injection H as <-. exists []. split; [constructor |].
    split; [reflexivity |]. intros i. reflexivity.
  - apply bind_ok in H as (c & Hc & H). apply bind_ok in H as (acc' & Ha & H).
    apply ew_add_ok in Ha as [Hl ->].
    destruct (IH _ _ H) as (cs & Hcs & Hlen & Hrow).
    exists (c :: cs). split; [constructor; assumption |].
    split; [rewrite Hlen; apply zip_add_length, Hl |].
    intros i. rewrite Hrow. cbn [map fold_left].
    apply fold_left_Qplus_compat. apply zip_add_nth, Hl.
Qed.

Lemma return_rows (xd : Dataset) (df df' : DataFrame)
      (code var loss : string) (k1 k2 : Q) (p0 : string) (ps : list string) :
  exec xd df (Return code var loss k1 k2 p0 ps) = Ok df' ->
  exists raw l c0 cs y,
    xd_var xd var = Ok raw /\ df_col df loss = Ok l /\ df_col df p0 = Ok c0 /\
    Forall2 (fun n c => df_col df n = Ok c) ps cs /\
    df_col df' code = Ok y /\
    (forall k, code <> k -> df_col df' k = df_col df k) /\
    forall i, nth i y 0 ==
              nth i raw 0 + nth i l 0 * k1
              + k2 * fold_left Qplus (map (fun c => nth i c 0) cs) (nth i c0 0).
Proof.
  cbn [exec]. intros H.
  apply bind_ok in H as (raw & Hraw & H). apply bind_ok in H as (l & Hl & H).
  apply bind_ok in H as (t1 & Ht1 & H). apply bind_ok in H as (c0 & Hc0 & H).
  apply bind_ok in H as (sm & Hsm & H). apply bind_ok in H as (t2 & Ht2 & H).
  apply ew_add_ok in Ht1 as [L1 ->]. apply ew_add_ok in Ht2 as [L2 ->].
  apply sum_cols_rows in Hsm as (cs & Hcs & _ & Hrow).
  apply df_set_ok in H as (_ & _ & Hy & Hother).
  eexists raw, l, c0, cs, _.
  split; [exact Hraw |]. split; [exact Hl |]. split; [exact Hc0 |].
  split; [exact Hcs |]. split; [exact Hy |]. split; [exact Hother |].
  intros i. rewrite zip_add_nth by exact L2. rewrite zip_add_nth by exact L1.
  rewrite (map_nth_scaled (fun v => v * k1)) by ring.
  rewrite (map_nth_scaled (fun v => k2 * v)) by ring.
  rewrite Hrow. reflexivity.
Qed.

Lemma Forall2_In_impl {A B : Type} (P Q : A -> B -> Prop) (l : list A) (l' : list B) :
  Forall2 P l l' -> (forall a b, In a l -> P a b -> Q a b) -> Forall2 Q l l'.
Proof.
  intros H. induction H as [| a b l l' Hab _ IH]; intros Himp; constructor.
  - apply Himp; [now left | exact Hab].
  - apply IH. intros a' b' Hin. apply Himp. now right.
Qed.

(** A return statement inside a table's cells, when the cells after it
    assign none of the columns it reads or writes. *)
Lemma return_in_cells (xd : Dataset) (fv : string) (before after : list stmt)
      (code var loss : string) (k1 k2 : Q) (p0 : string) (ps : list string)
      (df : DataFrame) :
  build fv (before ++ Return code var loss k1 k2 p0 ps :: after) xd = Ok df ->
  (forall k, In k (code :: loss :: p0 :: ps) -> writes_elsewhere k after = true) ->
  ~ In code (loss :: p0 :: ps) ->
  exists raw l c0 cs y,
    xd_var xd var = Ok raw /\ df_col df loss = Ok l /\ df_col df p0 = Ok c0 /\
    Forall2 (fun n c => df_col df n = Ok c) ps cs /\
    df_col df code = Ok y /\
    forall i, nth i y 0 ==
              nth i raw 0 + nth i l 0 * k1
              + k2 * fold_left Qplus (map (fun c => nth i c 0) cs) (nth i c0 0).
Proof.
  intros H Hafter Hself. unfold build in H.
  apply bind_ok in H as (df0 & _ & H).
  rewrite run_app in H. apply bind_ok in H as (df1 & _ & H).
  cbn [run] in H. apply bind_ok in H as (df2 & H2 & H).
  apply return_rows in H2
    as (raw & l & c0 & cs & y & Hraw & Hl & Hc0 & Hcs & Hy & Hother & Hrow).
  assert (Hkeep : forall k, In k (code :: loss :: p0 :: ps) ->
                            df_col df k = df_col df2 k).
  { intros k Hk. apply (run_frame xd after k (Hafter k Hk) _ _ H). }
  assert (Hread : forall k, In k (loss :: p0 :: ps) -> df_col df k = df_col df1 k).
  { intros k Hk. rewrite (Hkeep k (or_intror Hk)). apply Hother.
    intros ->. exact (Hself Hk). }
  exists raw, l, c0, cs, y.
  split; [exact Hraw |].
  split; [rewrite Hread by (left; reflexivity); exact Hl |].
  split; [rewrite Hread by (right; left; reflexivity); exact Hc0 |].
  split.
  { apply (Forall2_In_impl _ _ _ _ Hcs). intros n c Hin Hn.
    rewrite Hread by (right; right; exact Hin). exact Hn. }
  split; [rewrite Hkeep by (left; reflexivity); exact Hy | exact Hrow].
Qed.

Lemma column_length (df : DataFrame) (k : string) (c : list Q) :
  well_formed df -> df_col df k = Ok c -> List.length c = List.length (index df).
Proof.
  unfold well_formed, df_col. intros Hwf.
  induction Hwf as [| [k' c'] l Hh _ IH]; cbn; [discriminate |].
  destruct (String.eqb k' k); [intros [= <-]; exact Hh | exact IH].
Qed.

(** In the table the detailed builder returns, the suspension feeder's
    return column Y3Q6 holds at every row
    Y3_fYQPc + 0.85 * Q6Y3 + 0.35 * (P1Y3 + P2Y3 + P3Y3 + R6Y3 + H1Y3), on
    the columns of that table, and has one entry per timestamp. *)
Theorem suspension_feeder_return_formula (xd : Dataset) (df : DataFrame) :
  build_detailed xd = Ok df ->
  exists raw q6 p1 p2 p3 r6 h1 y3q6,
    xd_var xd "Y3_fYQPc" = Ok raw /\
    df_col df "Q6Y3" = Ok q6 /\ df_col df "P1Y3" = Ok p1 /\
    df_col df "P2Y3" = Ok p2 /\ df_col df "P3Y3" = Ok p3 /\
    df_col df "R6Y3" = Ok r6 /\ df_col df "H1Y3" = Ok h1 /\
    df_col df "Y3Q6" = Ok y3q6 /\
    List.length y3q6 = List.length (time xd) /\
    forall i, nth i y3q6 0 ==
      nth i raw 0 + (85 # 100) * nth i q6 0
      + (35 # 100) * (nth i p1 0 + nth i p2 0 + nth i p3 0 + nth i r6 0 + nth i h1 0).
Proof.
  intros H.
  pose proof (build_shape "Y2_fYG3c" detailed_flux_cells xd df
                (codes_distinct detailed_flux_cells eq_refl) H) as (_ & Hidx & Hwf).
  change (build_detailed xd) with
    (build "Y2_fYG3c"
       ((deposition ++ bacteria ++ deposit_feeder_prey
         ++ deposit_feeder_return :: firstn 7 fauna_rest)
        ++ Return "Y3Q6" "Y3_fYQPc" "Q6Y3" (85 # 100) (35 # 100)
                  "P1Y3" ["P2Y3"; "P3Y3"; "R6Y3"; "H1Y3"]
           :: skipn 8 fauna_rest)%list xd) in H.
  apply return_in_cells in H
    as (raw & q6 & p1 & cs & y & Hraw & Hq6 & Hp1 & Hcs & Hy & Hrow).
  - inversion Hcs as [| n2 p2 ns2 cs2 Hp2 Hcs2]; subst.
    inversion Hcs2 as [| n3 p3 ns3 cs3 Hp3 Hcs3]; subst.
    inversion Hcs3 as [| n4 r6 ns4 cs4 Hr6 Hcs4]; subst.
    inversion Hcs4 as [| n5 h1 ns5 cs5 Hh1 Hcs5]; subst.
    inversion Hcs5; subst.
    exists raw, q6, p1, p2, p3, r6, h1, y.
    repeat (split; [assumption |]).
    split; [rewrite <- Hidx; apply (column_length df "Y3Q6" y Hwf Hy) |].
    intros i. rewrite Hrow. cbn [map fold_left]. ring.
  - intros k Hk. cbn in Hk.
    repeat (destruct Hk as [<- | Hk]; [reflexivity |]). destruct Hk.
  - cbn. intros Hk.
    repeat (destruct Hk as [Hk | Hk]; [discriminate Hk |]). exact Hk.
Qed.

Lemma suspension_feeder_return_formula_witness :
  exists df y3q6,
    build_detailed sample_dataset = Ok df /\
    df_col df "Y3Q6" = Ok y3q6 /\
    List.length y3q6 = 2%nat.
Proof.
  assert (Hrun : exists df, build_detailed sample_dataset = Ok df)
    by (eexists; vm_compute; reflexivity).
  destruct Hrun as [df Hrun].
  destruct (suspension_feeder_return_formula sample_dataset df Hrun)
    as (raw & q6 & p1 & p2 & p3 & r6 & h1 & y & _ & _ & _ & _ & _ & _ & _ & Hy & Hl & _).
  exists df, y. repeat split; assumption.
Defined.

(** In the table the detailed builder returns, the meiofauna's return
    column Y4Q6 holds at every row
    Y4_fYQPc + 0.4 * Q6Y4 + 0.25 * (Y4Y4 + H1Y4 + H2Y4), on the columns of
    that table, and has one entry per timestamp. *)
Theorem meiofauna_return_formula (xd : Dataset) (df : DataFrame) :
  build_detailed xd = Ok df ->
  exists raw q6 y4 h1 h2 y4q6,
    xd_var xd "Y4_fYQPc" = Ok raw /\
    df_col df "Q6Y4" = Ok q6 /\ df_col df "Y4Y4" = Ok y4 /\
    df_col df "H1Y4" = Ok h1 /\ df_col df "H2Y4" = Ok h2 /\
    df_col df "Y4Q6" = Ok y4q6 /\
    List.length y4q6 = List.length (time xd) /\
    forall i, nth i y4q6 0 ==
      nth i raw 0 + (4 # 10) * nth i q6 0
      + (25 # 100) * (nth i y4 0 + nth i h1 0 + nth i h2 0).
Proof.
  intros H.
  pose proof (build_shape "Y2_fYG3c" detailed_flux_cells xd df
                (codes_distinct detailed_flux_cells eq_refl) H) as (_ & Hidx & Hwf).
  change (build_detailed xd) with
    (build "Y2_fYG3c"
       ((deposition ++ bacteria ++ deposit_feeder_prey
         ++ deposit_feeder_return :: firstn 13 fauna_rest)
        ++ Return "Y4Q6" "Y4_fYQPc" "Q6Y4" (4 # 10) (25 # 100)
                  "Y4Y4" ["H1Y4"; "H2Y4"]
           :: [])%list xd) in H.
  apply return_in_cells in H
    as (raw & q6 & y4 & cs & y & Hraw & Hq6 & Hy4 & Hcs & Hy & Hrow).
  - inversion Hcs as [| n2 h1 ns2 cs2 Hh1 Hcs2]; subst.
    inversion Hcs2 as [| n3 h2 ns3 cs3 Hh2 Hcs3]; subst.
    inversion Hcs3; subst.
    exists raw, q6, y4, h1, h2, y.
    repeat (split; [assumption |]).
    split; [rewrite <- Hidx; apply (column_length df "Y4Q6" y Hwf Hy) |].
    intros i. rewrite Hrow. cbn [map fold_left]. ring.
  - intros k Hk. reflexivity.
  - cbn. intros Hk.
    repeat (destruct Hk as [Hk | Hk]; [discriminate Hk |]). exact Hk.
Qed.

Lemma meiofauna_return_formula_witness :
  exists df y4q6,
    build_detailed sample_dataset = Ok df /\
    df_col df "Y4Q6" = Ok y4q6 /\
    List.length y4q6 = 2%nat.
Proof.
  assert (Hrun : exists df, build_detailed sample_dataset = Ok df)
    by (eexists; vm_compute; reflexivity).
  destruct Hrun as [df Hrun].
  destruct (meiofauna_return_formula sample_dataset df Hrun)
    as (raw & q6 & y4 & h1 & h2 & y & _ & _ & _ & _ & _ & Hy & Hl & _).
  exists df, y. repeat split; assumption.
Defined.

(** ** More on the year filter *)

Lemma select_index (y : Z) (idx : list Timestamp) :
  select (year_mask y idx) idx = filter (fun t => Z.eqb (year t) y) idx.
Proof.
  induction idx as [| t idx IH]; cbn; [reflexivity |].
  destruct (Z.eqb (year t) y); [f_equal |]; exact IH.
Qed.

Lemma select_rows (y : Z) (idx : list Timestamp) (c : list Q) :
  select (year_mask y idx) c
  = map snd (filter (fun r => Z.eqb (year (fst r)) y) (combine idx c)).
Proof.
  revert c. induction idx as [| t idx IH]; intros [| v c]; cbn; try reflexivity.
  destruct (Z.eqb (year t) y); cbn; [f_equal |]; apply IH.
Qed.

Lemma lookup_map_columns (f : list Q -> list Q) (k : string)
      (l : list (string * list Q)) :
  lookup k (map (fun kc => (fst kc, f (snd kc))) l) = option_map f (lookup k l).
Proof.
  induction l as [| [k' c] l IH]; cbn; [reflexivity |].
  destruct (String.eqb k' k); [reflexivity | exact IH].
Qed.

(** The filtered table has the rows of the target year and no others, in
    their original order, under the same column labels; every column keeps
    the values that stood beside the kept timestamps, and a label that is
    no column stays none. *)
Theorem filter_keeps_the_rows_of_the_year (y : Z) (df : DataFrame) :
  index (filter_year y df) = filter (fun t => Z.eqb (year t) y) (index df) /\
  List.length (index (filter_year y df)) = rows_in_year y df /\
  column_labels (filter_year y df) = column_labels df /\
  (forall k c, df_col df k = Ok c ->
     df_col (filter_year y df) k
     = Ok (map snd (filter (fun r => Z.eqb (year (fst r)) y) (rows df c)))) /\
  (forall k e, df_col df k = Raise e -> df_col (filter_year y df) k = Raise e).
Proof.
  unfold filter_year, column_labels, rows_in_year, df_col, rows. cbn [index columns].
  rewrite select_index, map_map. cbn [fst].
  repeat split.
  - intros k c. rewrite lookup_map_columns.
    destruct (lookup k (columns df)); [| discriminate].
    intros [= <-]. cbn. now rewrite select_rows.
  - intros k e. rewrite lookup_map_columns.
    destruct (lookup k (columns df)); [discriminate | intros H; exact H].
Qed.

Lemma filter_keeps_the_rows_of_the_year_witness :
  df_col (filter_year 2016
            (mkFrame [mkTimestamp 2015 12 31 0; mkTimestamp 2016 1 1 0;
                      mkTimestamp 2016 1 2 0; mkTimestamp 2017 1 1 0]
                     [("Q6R6", [1; 2; 3; 4])])) "Q6R6"
  = Ok [2; 3].
Proof.
  destruct (filter_keeps_the_rows_of_the_year 2016
              (mkFrame [mkTimestamp 2015 12 31 0; mkTimestamp 2016 1 1 0;
                        mkTimestamp 2016 1 2 0; mkTimestamp 2017 1 1 0]
                       [("Q6R6", [1; 2; 3; 4])]))
    as (_ & _ & _ & Hcol & _).
  apply (Hcol "Q6R6" [1; 2; 3; 4]). reflexivity.
Defined.

Lemma select_nil {A : Type} (mask : list bool) : select mask (@nil A) = [].
Proof. destruct mask; reflexivity. Qed.

Lemma select_twice {A : Type} (y1 y2 : Z) (idx : list Timestamp) (xs : list A) :
  select (year_mask y1 (select (year_mask y2 idx) idx)) (select (year_mask y2 idx) xs)
  = select (map (fun t => Z.eqb (year t) y1 && Z.eqb (year t) y2) idx) xs.
Proof.
  revert xs. induction idx as [| t idx IH]; intros xs; [reflexivity |].
  destruct xs as [| v xs]; [rewrite !select_nil; reflexivity |].
  cbn. destruct (Z.eqb (year t) y2); cbn.
  - rewrite andb_true_r. destruct (Z.eqb (year t) y1); [f_equal |]; apply IH.
  - rewrite andb_false_r. apply IH.
Qed.

Lemma filter_twice (y1 y2 : Z) (df : DataFrame) :
  filter_year y1 (filter_year y2 df)
  = mkFrame
      (select (map (fun t => Z.eqb (year t) y1 && Z.eqb (year t) y2) (index df))
              (index df))
      (map (fun kc =>
              (fst kc,
               select (map (fun t => Z.eqb (year t) y1 && Z.eqb (year t) y2) (index df))
                      (snd kc)))
           (columns df)).
Proof.
  unfold filter_year. cbn [index columns]. f_equal.
  - apply select_twice.
  - rewrite map_map. apply map_ext. intros [k c]. cbn [fst snd].
    f_equal. apply select_twice.
Qed.

(** Filtering by one year and then by another gives the same table in
    either order, and no rows at all when the years differ. *)
Theorem filters_commute (y1 y2 : Z) (df : DataFrame) :
  filter_year y1 (filter_year y2 df) = filter_year y2 (filter_year y1 df) /\
  (y1 <> y2 -> index (filter_year y1 (filter_year y2 df)) = [] /\
               forall k c, df_col (filter_year y1 (filter_year y2 df)) k = Ok c ->
                           c = []).
Proof.
  split.
  - rewrite !filter_twice.
    assert (Hm : map (fun t => Z.eqb (year t) y1 && Z.eqb (year t) y2) (index df)
                 = map (fun t => Z.eqb (year t) y2 && Z.eqb (year t) y1) (index df)).
    { apply map_ext. intros t. apply andb_comm. }
    rewrite Hm. reflexivity.
  - intros Hne. rewrite filter_twice. cbn [index].
    assert (Hf : Forall (fun b => b = false)
                   (map (fun t => Z.eqb (year t) y1 && Z.eqb (year t) y2) (index df))).
    { apply Forall_map, Forall_forall. intros t _.
      destruct (Z.eqb_spec (year t) y1), (Z.eqb_spec (year t) y2);
        try reflexivity. congruence. }
    split; [apply select_all_false, Hf |].
    intros k c. unfold df_col. cbn [columns]. rewrite lookup_map_columns.
    destruct (lookup k (columns df)); [| discriminate].
    intros [= <-]. apply select_all_false, Hf.
Qed.

Lemma filters_commute_witness :
  index (filter_year 2016 (filter_year 2015
           (mkFrame [mkTimestamp 2015 6 1 0; mkTimestamp 2016 6 1 0] [("Q6R6", [1; 2])])))
  = [].
Proof.
  destruct (filters_commute 2016 2015
              (mkFrame [mkTimestamp 2015 6 1 0; mkTimestamp 2016 6 1 0] [("Q6R6", [1; 2])]))
    as [_ H].
  apply H. discriminate.
Defined.

(** A table whose rows all lie in the target year, with every column as
    long as the index, passes the filter unchanged. *)
Theorem filter_keeps_a_table_inside_the_year (y : Z) (df : DataFrame) :
  well_formed df ->
  Forall (fun t => year t = y) (index df) ->
  filter_year y df = df.
Proof.
  intros Hwf Hall.
  assert (Hmask : year_mask y (index df) = repeat true (List.length (index df))).
  { unfold year_mask. induction Hall as [| t idx Ht _ IH]; cbn; [reflexivity |].
    rewrite IH. apply Z.eqb_eq in Ht. rewrite Ht. reflexivity. }
  unfold filter_year. rewrite Hmask. destruct df as [idx cols]. cbn [index columns] in *.
  f_equal.
  - apply select_all_true. lia.
  - unfold well_formed in Hwf. cbn [index columns] in Hwf.
    induction Hwf as [| [k c] l Hc _ IH]; cbn; [reflexivity |].
    cbn [snd] in Hc. rewrite IH, select_all_true by lia. reflexivity.
Qed.

Lemma filter_keeps_a_table_inside_the_year_witness :
  filter_year 2016 (mkFrame [mkTimestamp 2016 3 1 0; mkTimestamp 2016 3 2 0]
                            [("Q6R6", [1; 2]); ("R4Q6", [3; 4])])
  = mkFrame [mkTimestamp 2016 3 1 0; mkTimestamp 2016 3 2 0]
            [("Q6R6", [1; 2]); ("R4Q6", [3; 4])].
Proof.
  apply filter_keeps_a_table_inside_the_year.
  - repeat constructor.
  - repeat constructor.
Defined.

(** ** The means *)

Lemma means_get (cols : list (string * list Q)) (s : Series) (k : string) :
  means cols = Some s ->
  map fst s = map fst cols /\
  match lookup k cols with
  | Some c => exists m, col_mean c = Some m /\ series_get s k = Ok m
  | None => series_get s k = Raise (KeyError k)
  end.
Proof.
  revert s. induction cols as [| [k' c] cols IH]; cbn [means]; intros s H.
  - injection H as <-. split; reflexivity.
  - destruct (col_mean c) as [m |] eqn:Hm; [| discriminate].
    destruct (means cols) as [s' |]; [| discriminate].
    injection H as <-. destruct (IH s' eq_refl) as [Hl Hg].
    split; [cbn; now rewrite Hl |].
    cbn. destruct (String.eqb k' k); [exists m; split; [exact Hm | reflexivity] |].
    exact Hg.
Qed.

(** The mean vector carries the table's column labels in the table's
    order; a column's label finds that column's mean, and a label that is no
    column raises [KeyError]. *)
Theorem mean_vector_has_the_columns (df : DataFrame) (dfm : Series) (k : string) :
  frame_mean df = Some dfm ->
  map fst dfm = column_labels df /\
  (forall c, df_col df k = Ok c ->
     exists m, col_mean c = Some m /\ series_get dfm k = Ok m) /\
  (forall e, df_col df k = Raise e -> series_get dfm k = Raise (KeyError k)).
Proof.
  unfold frame_mean, column_labels, df_col. intros H.
  destruct (means_get (columns df) dfm k H) as [Hl Hg].
  split; [exact Hl |].
  destruct (lookup k (columns df)) as [c |].
  - split; [intros c' [= <-]; exact Hg | discriminate].
  - split; [discriminate | intros e _; exact Hg].
Qed.

Lemma mean_vector_has_the_columns_witness :
  exists dfm,
    frame_mean (mkFrame [mkTimestamp 2016 1 1 0; mkTimestamp 2016 1 2 0]
                        [("Q6R6", [1; 3]); ("R4Q6", [4; 6])]) = Some dfm /\
    series_get dfm "Q6Y2" = Raise (KeyError "Q6Y2").
Proof.
  assert (H : exists dfm,
             frame_mean (mkFrame [mkTimestamp 2016 1 1 0; mkTimestamp 2016 1 2 0]
                                 [("Q6R6", [1; 3]); ("R4Q6", [4; 6])]) = Some dfm)
    by (eexists; vm_compute; reflexivity).
  destruct H as [dfm H]. exists dfm. split; [exact H |].
  destruct (mean_vector_has_the_columns _ dfm "Q6Y2" H) as (_ & _ & Hk).
  apply (Hk (AttributeError "Q6Y2")). reflexivity.
Defined.

Lemma count_positive (n : nat) : 0 < inject_Z (Z.of_nat (S n)).
Proof. unfold Qlt. cbn. lia. Qed.

Lemma count_succ (n : nat) :
  inject_Z (Z.of_nat (S n)) == inject_Z (Z.of_nat n) + 1.
Proof. rewrite Nat2Z.inj_succ. unfold Z.succ. rewrite inject_Z_plus. reflexivity. Qed.

Lemma Qsum_bounds (c : list Q) (lo hi : Q) :
  (forall v, In v c -> lo <= v /\ v <= hi) ->
  lo * inject_Z (Z.of_nat (List.length c)) <= Qsum c /\
  Qsum c <= hi * inject_Z (Z.of_nat (List.length c)).
Proof.
  induction c as [| v c IH]; intros Hb.
  - change (inject_Z (Z.of_nat (List.length (@nil Q)))) with 0.
    change (Qsum []) with 0. split; lra.
  - destruct IH as [IHl IHh]; [intros u Hu; apply Hb; now right |].
    destruct (Hb v (or_introl eq_refl)) as [Hl Hh].
    change (Qsum (v :: c)) with (v + Qsum c).
    change (List.length (v :: c)) with (S (List.length c)).
    rewrite count_succ. split; lra.
Qed.

(** In exact arithmetic a column's mean lies between any two bounds that
    hold for all of its entries. *)
Theorem mean_stays_within_the_column (df : DataFrame) (dfm : Series)
        (k : string) (c : list Q) (m lo hi : Q) :
  frame_mean df = Some dfm ->
  df_col df k = Ok c ->
  series_get dfm k = Ok m ->
  (forall v, In v c -> lo <= v /\ v <= hi) ->
  lo <= m /\ m <= hi.
Proof.
  unfold frame_mean, df_col. intros H Hc Hm Hb.
  destruct (means_get (columns df) dfm k H) as [_ Hg].
  destruct (lookup k (columns df)) as [c' |]; [| discriminate].
  injection Hc as ->. destruct Hg as (m' & Hm' & Hget).
  rewrite Hget in Hm. injection Hm as ->.
  destruct c as [| v c]; [discriminate |]. cbn [col_mean] in Hm'.
  injection Hm' as <-.
  destruct (Qsum_bounds (v :: c) lo hi Hb) as [Hl Hh].
  pose proof (count_positive (List.length c)) as Hpos.
  cbn [List.length] in *.
  split.
  - apply Qle_shift_div_l; assumption.
  - apply Qle_shift_div_r; assumption.
Qed.

Lemma mean_stays_within_the_column_witness :
  0 <= 4 # 2 /\ 4 # 2 <= 3.
Proof.
  apply (mean_stays_within_the_column
           (mkFrame [mkTimestamp 2016 1 1 0; mkTimestamp 2016 1 2 0] [("Q6R6", [1; 3])])
           [("Q6R6", 4 # 2)] "Q6R6" [1; 3] (4 # 2) 0 3); try reflexivity.
  intros v [<- | [<- | []]]; split; unfold Qle; cbn; lia.
Defined.

Lemma means_none (cols : list (string * list Q)) :
  means cols = None <-> Exists (fun kc => snd kc = []) cols.
Proof.
  induction cols as [| [k c] cols IH]; cbn [means].
  - split; [discriminate | intros H; inversion H].
  - destruct c as [| v c]; cbn [col_mean].
    + split; [intros _; now left | reflexivity].
    + destruct (means cols) as [s |].
      * split; [discriminate |]. intros H. inversion H as [? ? Hc | ? ? Hr]; subst.
        -- discriminate Hc.
        -- apply IH in Hr. discriminate Hr.
      * split; [intros _; right; now apply IH | reflexivity].
Qed.

(** For a table with at least one column and one entry per timestamp in
    each, the means over the target year are all numbers exactly when some
    row lies in that year: with no such row every mean is NaN. *)
Theorem window_means_need_a_row (y : Z) (df : DataFrame) :
  well_formed df ->
  columns df <> [] ->
  (frame_mean (filter_year y df) = None <-> rows_in_year y df = 0%nat) /\
  (rows_in_year y df = 0%nat ->
   forall k c, df_col (filter_year y df) k = Ok c -> col_mean c = None).
Proof.
  intros Hwf Hne.
  pose proof (filter_year_well_formed y df Hwf) as Hwf'.
  assert (Hn : List.length (index (filter_year y df)) = rows_in_year y df).
  { unfold filter_year, rows_in_year. cbn [index]. now rewrite select_index. }
  assert (Hempty : rows_in_year y df = 0%nat ->
                   forall k c, df_col (filter_year y df) k = Ok c -> c = []).
  { intros H0 k c Hc. apply (column_length _ _ _ Hwf') in Hc.
    rewrite Hn, H0 in Hc. now apply length_zero_iff_nil. }
  split; [split |].
  - intros Hnone. apply means_none in Hnone. apply Exists_exists in Hnone
      as ([k c] & Hin & Hc). cbn [snd] in Hc. subst c.
    unfold well_formed in Hwf'. rewrite Forall_forall in Hwf'.
    specialize (Hwf' _ Hin). cbn [snd List.length] in Hwf'. congruence.
  - intros H0. apply means_none.
    destruct (columns df) as [| [k c] cols] eqn:Hcols; [contradiction |].
    unfold filter_year. rewrite Hcols. cbn [columns map fst snd]. left. cbn [snd].
    apply (Hempty H0 k). unfold df_col, filter_year. rewrite Hcols.
    cbn [columns map fst snd lookup]. now rewrite String.eqb_refl.
  - intros H0 k c Hc. rewrite (Hempty H0 k c Hc). reflexivity.
Qed.

Lemma window_means_need_a_row_witness :
  frame_mean (filter_year 2016 (mkFrame [mkTimestamp 2015 7 1 0] [("Q6R6", [3])]))
  = None.
Proof.
  apply (window_means_need_a_row 2016 (mkFrame [mkTimestamp 2015 7 1 0] [("Q6R6", [3])])).
  - repeat constructor.
  - discriminate.
  - reflexivity.
Defined.

(** ** From the builder to the loop *)

Lemma series_get_label (s : Series) (k : string) :
  In k (map fst s) -> exists v, series_get s k = Ok v.
Proof.
  induction s as [| [k' v] s IH]; cbn; [intros [] |].
  destruct (String.eqb_spec k' k) as [-> | Hne]; [eauto |].
  intros [Heq | Hin]; [contradiction | now apply IH].
Qed.

Lemma drawn_codes_are_built (fluxes : list string) (cells : list stmt) (fl : string) :
  forallb (fun f => existsb (String.eqb f) (map stmt_code cells)) fluxes = true ->
  In fl fluxes -> In fl (map stmt_code cells).
Proof.
  intros H Hin. rewrite forallb_forall in H. specialize (H fl Hin).
  apply existsb_exists in H as (c & Hc & Heq). apply String.eqb_eq in Heq.
  now subst.
Qed.

(** In both pipelines every edge code of the drawing list is a column the
    builder assigns, so on the means of any year with a row the loop's
    lookups [dfm[fl]] find a value: the loop raises no [KeyError]. *)
Theorem every_drawn_flux_has_a_mean (xd : Dataset) (df : DataFrame) (y : Z)
        (dfm : Series) (fl : string) :
  (build_detailed xd = Ok df ->
   frame_mean (filter_year y df) = Some dfm ->
   In fl Renderer.fluxes_detailed ->
   exists v, series_get dfm fl = Ok v) /\
  (build_simplified xd = Ok df ->
   frame_mean (filter_year y df) = Some dfm ->
   In fl Renderer.fluxes_simplified ->
   exists v, series_get dfm fl = Ok v).
Proof.
  assert (Hlab : frame_mean (filter_year y df) = Some dfm ->
                 map fst dfm = column_labels df).
  { intros Hm. destruct (means_get _ _ fl Hm) as [Hl _]. rewrite Hl.
    unfold filter_year, column_labels. cbn [columns]. now rewrite map_map. }
  split; intros Hb Hm Hin; apply series_get_label; rewrite (Hlab Hm).
  - apply (build_shape "Y2_fYG3c" detailed_flux_cells) in Hb as (-> & _);
      [| apply codes_distinct; reflexivity].
    apply (drawn_codes_are_built Renderer.fluxes_detailed); [reflexivity | exact Hin].
  - apply (build_shape "Q6_c" simplified_flux_cells) in Hb as (-> & _);
      [| apply codes_distinct; reflexivity].
    apply (drawn_codes_are_built Renderer.fluxes_simplified); [reflexivity | exact Hin].
Qed.

Lemma every_drawn_flux_has_a_mean_witness :
  exists df dfm v,
    build_detailed sample_dataset = Ok df /\
    frame_mean (filter_year 2016 df) = Some dfm /\
    series_get dfm "Y4Q6" = Ok v.
Proof.
  assert (Hrun : exists df, build_detailed sample_dataset = Ok df)
    by (eexists; vm_compute; reflexivity).
  destruct Hrun as [df Hrun].
  assert (Hmean : exists dfm, frame_mean (filter_year 2016 df) = Some dfm).
  { revert Hrun. vm_compute. intros [= <-]. eexists. reflexivity. }
  destruct Hmean as [dfm Hmean].
  destruct (every_drawn_flux_has_a_mean sample_dataset df 2016 dfm "Y4Q6") as [H _].
  destruct (H Hrun Hmean) as [v Hv].
  - unfold Renderer.fluxes_detailed. cbn. tauto.
  - exists df, dfm, v. repeat split; assumption.
Defined.

(** ** The reported maximum *)

(** When the means are all numbers, [maxw] holds exactly the columns whose
    mean no other mean exceeds, all of one value, and it has an entry as
    soon as the table has a column.  (With NaN means, as after a window
    without rows, no mean equals the maximum and [maxw] is empty; the
    number model does not hold that vector.) *)
Theorem maxw_holds_exactly_the_maxima (df : DataFrame) (dfm : Series) :
  frame_mean df = Some dfm ->
  (forall k v, In (k, v) (max_entries dfm) <->
               In (k, v) dfm /\ forall k' v', In (k', v') dfm -> v' <= v) /\
  (forall k1 v1 k2 v2, In (k1, v1) (max_entries dfm) ->
                       In (k2, v2) (max_entries dfm) -> v1 == v2) /\
  (columns df <> [] -> max_entries dfm <> []).
Proof.
  intros Hmean.
  split; [apply max_entries_are_the_maxima | split].
  - intros k1 v1 k2 v2 H1 H2.
    apply max_entries_are_the_maxima in H1 as [I1 U1].
    apply max_entries_are_the_maxima in H2 as [I2 U2].
    pose proof (U1 _ _ I2). pose proof (U2 _ _ I1). lra.
  - intros Hcols He.
    destruct (means_get (columns df) dfm "" Hmean) as [Hlab _].
    destruct dfm as [| [k0 v0] s].
    + destruct (columns df); [contradiction | discriminate Hlab].
    + destruct (series_max ((k0, v0) :: s)) as [m |] eqn:Hm.
      * destruct (series_max_attained _ _ Hm) as [k Hk].
        assert (Hin : In (k, m) (max_entries ((k0, v0) :: s))).
        { apply max_entries_are_the_maxima. split; [exact Hk |].
          apply (series_max_upper _ _ Hm). }
        rewrite He in Hin. destruct Hin.
      * cbn in Hm. destruct (series_max s); discriminate Hm.
Qed.

Lemma maxw_holds_exactly_the_maxima_witness :
  exists dfm,
    frame_mean (mkFrame [mkTimestamp 2016 1 1 0; mkTimestamp 2016 1 2 0]
                        [("Q6R6", [1; 3]); ("Q6Y4", [6; 8]); ("R4Q6", [7; 7])])
    = Some dfm /\
    max_entries dfm <> [].
Proof.
  assert (H : exists dfm,
             frame_mean (mkFrame [mkTimestamp 2016 1 1 0; mkTimestamp 2016 1 2 0]
                                 [("Q6R6", [1; 3]); ("Q6Y4", [6; 8]); ("R4Q6", [7; 7])])
             = Some dfm)
    by (eexists; vm_compute; reflexivity).
  destruct H as [dfm H]. exists dfm. split; [exact H |].
  destruct (maxw_holds_exactly_the_maxima _ dfm H) as (_ & _ & Hne).
  apply Hne. discriminate.
Defined.

(** ** The loop as a whole *)

Lemma series_get_missing (s : Series) (k : string) :
  ~ In k (map fst s) -> series_get s k = Raise (KeyError k).
Proof.
  induction s as [| [k' v] s IH]; cbn; intros Hn; [reflexivity |].
  destruct (String.eqb_spec k' k); [tauto | apply IH; tauto].
Qed.

Lemma small_flux_step (dfm : Series) (maxwidth : list Q) (fl : string) (v : Q) :
  series_get dfm fl = Ok v ->
  v < 2 # 10 ->
  exists e, Renderer.edge_step dfm maxwidth fl = Ok e /\
    Renderer.penwidth e = 5 # 10 /\
    (Renderer.color e = Renderer.blue \/ Renderer.color e = Renderer.red).
Proof.
  intros Hv Hsmall.
  unfold Renderer.edge_step, split_code, Renderer.style. rewrite Hv. cbn [bind].
  destruct (Qlt_bool v (1 # 100000)).
  - eexists. split; [reflexivity |]. cbn. auto.
  - assert (H2 : Qlt_bool v (2 # 10) = true) by (apply Qlt_bool_iff; exact Hsmall).
    rewrite H2. eexists. split; [reflexivity |]. cbn. auto.
Qed.

(** With a single positive maximum and every listed code among the means,
    the loop draws exactly one edge per code, in list order, from the first
    two characters of the code to the rest of it, each with a width between
    0.5 and 10. *)
Theorem loop_draws_one_edge_per_code (dfm : Series) (k : string) (M : Q)
        (fluxes : list string) :
  max_entries dfm = [(k, M)] ->
  0 < M ->
  (forall fl, In fl fluxes -> exists v, series_get dfm fl = Ok v) ->
  exists es,
    Renderer.draw dfm fluxes = Ok es /\
    map (fun e => (Renderer.tail e, Renderer.head e)) es = map split_code fluxes /\
    Forall (fun e => 5 # 10 <= Renderer.penwidth e /\ Renderer.penwidth e <= 10) es.
Proof.
  intros Hmax _ Hall. unfold Renderer.draw. rewrite Hmax. cbn [values map snd].
  induction fluxes as [| fl fluxes IH]; cbn [Renderer.render map].
  - exists []. repeat split. constructor.
  - destruct (Hall fl (or_introl eq_refl)) as [v Hv].
    rewrite (edge_step_single dfm fl v M Hv). cbn [bind].
    destruct IH as (es & Hes & Hends & Hw); [intros f Hf; apply Hall; now right |].
    rewrite Hes. cbn [bind]. eexists. split; [reflexivity |].
    cbn [map Renderer.tail Renderer.head]. split; [now rewrite Hends |].
    constructor; [cbn [Renderer.penwidth]; apply step_width_bounds | exact Hw].
Qed.

Lemma loop_draws_one_edge_per_code_witness :
  exists es,
    Renderer.draw [("Q6R6", 1 # 10); ("Q6Y4", 8); ("R4Q6", 2)] ["R4Q6"; "Q6R6"] = Ok es /\
    map (fun e => (Renderer.tail e, Renderer.head e)) es = [("R4", "Q6"); ("Q6", "R6")].
Proof.
  destruct (loop_draws_one_edge_per_code
              [("Q6R6", 1 # 10); ("Q6Y4", 8); ("R4Q6", 2)] "Q6Y4" 8 ["R4Q6"; "Q6R6"])
    as (es & Hes & Hends & _).
  - reflexivity.
  - reflexivity.
  - intros fl [<- | [<- | []]]; eexists; reflexivity.
  - exists es. split; [exact Hes | exact Hends].
Defined.

(** With a single maximum, the loop stops at the first listed code that is
    no label of the mean vector and raises [KeyError] for it; the edges
    before it were styled, the codes after it are not looked at. *)
Theorem loop_stops_at_an_unknown_code (dfm : Series) (k : string) (M : Q)
        (before after : list string) (fl : string) :
  max_entries dfm = [(k, M)] ->
  (forall f, In f before -> exists v, series_get dfm f = Ok v) ->
  ~ In fl (map fst dfm) ->
  Renderer.draw dfm (before ++ fl :: after) = Raise (KeyError fl).
Proof.
  intros Hmax Hall Hmiss. unfold Renderer.draw. rewrite Hmax. cbn [values map snd].
  induction before as [| f before IH]; cbn [app Renderer.render].
  - unfold Renderer.edge_step, split_code.
    rewrite (series_get_missing dfm fl Hmiss). reflexivity.
  - destruct (Hall f (or_introl eq_refl)) as [v Hv].
    rewrite (edge_step_single dfm f v M Hv). cbn [bind].
    rewrite IH by (intros f' Hf'; apply Hall; now right). reflexivity.
Qed.

Lemma loop_stops_at_an_unknown_code_witness :
  Renderer.draw [("Q6R6", 1 # 10); ("Q6Y4", 8)] (["Q6Y4"] ++ "Q6G3" :: ["Q6R6"])
  = Raise (KeyError "Q6G3").
Proof.
  apply (loop_stops_at_an_unknown_code [("Q6R6", 1 # 10); ("Q6Y4", 8)] "Q6Y4" 8).
  - reflexivity.
  - intros f [<- | []]. eexists. reflexivity.
  - cbn. intros [H | [H | []]]; discriminate H.
Defined.

(** When every listed code has a mean below 0.2, the loop draws all of them
    with width 0.5, in blue or red, whatever [maxwidth] holds: no maximum,
    one, or several tied ones. *)
Theorem small_fluxes_are_drawn_whatever_the_maximum (dfm : Series)
        (maxwidth : list Q) (fluxes : list string) :
  (forall fl, In fl fluxes -> exists v, series_get dfm fl = Ok v /\ v < 2 # 10) ->
  exists es,
    Renderer.render dfm maxwidth fluxes = Ok es /\
    List.length es = List.length fluxes /\
    Forall (fun e => Renderer.penwidth e = 5 # 10 /\
                     (Renderer.color e = "#0066CC" \/ Renderer.color e = "#CC0000")) es.
Proof.
  intros Hall. induction fluxes as [| fl fluxes IH]; cbn [Renderer.render].
  - exists []. repeat split. constructor.
  - destruct (Hall fl (or_introl eq_refl)) as (v & Hv & Hs).
    destruct (small_flux_step dfm maxwidth fl v Hv Hs) as (e & He & Hw & Hc).
    rewrite He. cbn [bind].
    destruct IH as (es & Hes & Hlen & Hf); [intros f Hf; apply Hall; now right |].
    rewrite Hes. cbn [bind]. eexists. split; [reflexivity |].
    split; [cbn; now rewrite Hlen |].
    constructor; [split; assumption | exact Hf].
Qed.

Lemma small_fluxes_are_drawn_whatever_the_maximum_witness :
  exists es,
    Renderer.render [("Q6R6", 1 # 10); ("R4Q6", 1 # 10)] [1 # 10; 1 # 10] ["Q6R6"; "R4Q6"]
    = Ok es /\ List.length es = 2%nat.
Proof.
  destruct (small_fluxes_are_drawn_whatever_the_maximum
              [("Q6R6", 1 # 10); ("R4Q6", 1 # 10)] [1 # 10; 1 # 10] ["Q6R6"; "R4Q6"])
    as (es & Hes & Hlen & _).
  - intros fl [<- | [<- | []]]; eexists; split; reflexivity.
  - exists es. split; [exact Hes | exact Hlen].
Defined.

(** With two or more columns tied at the maximum, the loop raises
    [ValueError] as soon as the list holds a code whose mean is at least
    0.2, all listed codes being among the means; no graph is drawn. *)
Theorem tied_maximum_stops_any_significant_drawing (dfm : Series)
        (fluxes : list string) :
  (2 <= List.length (max_entries dfm))%nat ->
  (forall fl, In fl fluxes -> exists v, series_get dfm fl = Ok v) ->
  (exists fl v, In fl fluxes /\ series_get dfm fl = Ok v /\ 2 # 10 <= v) ->
  Renderer.draw dfm fluxes = Raise ValueError.
Proof.
  intros Htie Hall Hsig. unfold Renderer.draw.
  assert (Hlen : (2 <= List.length (values (max_entries dfm)))%nat)
    by (unfold values; rewrite length_map; exact Htie).
  induction fluxes as [| fl fluxes IH]; [destruct Hsig as (f & v & [] & _) |].
  cbn [Renderer.render].
  destruct (Hall fl (or_introl eq_refl)) as [v Hv].
  destruct (Qlt_bool_reflect v (2 # 10)) as [Hsmall | Hbig].
  - destruct (small_flux_step dfm (values (max_entries dfm)) fl v Hv Hsmall)
      as (e & He & _).
    rewrite He. cbn [bind]. rewrite IH; [reflexivity | |].
    + intros f Hf. apply Hall. now right.
    + destruct Hsig as (f & u & [<- | Hin] & Hu & Hge).
      * rewrite Hv in Hu. injection Hu as <-. exfalso. lra.
      * exists f, u. auto.
  - rewrite (several_maxima_raise dfm _ fl v Hlen Hv); [reflexivity |].
    now apply Qnot_lt_le.
Qed.

Lemma tied_maximum_stops_any_significant_drawing_witness :
  Renderer.draw [("Q6R6", 1 # 10); ("Q6Y4", 7); ("R4Q6", 7)] ["Q6R6"; "R4Q6"]
  = Raise ValueError.
Proof.
  apply tied_maximum_stops_any_significant_drawing.
  - cbn. lia.
  - intros fl [<- | [<- | []]]; eexists; reflexivity.
  - exists "R4Q6", 7. split; [cbn; tauto |]. split; [reflexivity |].
    unfold Qle. cbn. lia.
Defined.

(** For one positive maximum, a larger mean flux is never drawn thinner,
    whatever tiers the two fluxes fall in. *)
Theorem width_never_decreases_with_the_flux (dfm : Series) (fl1 fl2 : string)
        (v1 v2 M : Q) :
  0 < M ->
  series_get dfm fl1 = Ok v1 ->
  series_get dfm fl2 = Ok v2 ->
  v1 <= v2 ->
  exists e1 e2,
    Renderer.edge_step dfm [M] fl1 = Ok e1 /\
    Renderer.edge_step dfm [M] fl2 = Ok e2 /\
    Renderer.penwidth e1 <= Renderer.penwidth e2.
Proof.
  intros HM H1 H2 Hle.
  do 2 eexists. split; [apply edge_step_single; exact H1 |].
  split; [apply edge_step_single; exact H2 |].
  cbn [Renderer.penwidth].
  destruct (Qlt_bool_reflect v1 (2 # 10)) as [Hs1 | Hs1].
  - assert (Hw1 : step_width v1 M = 5 # 10).
    { unfold step_width. destruct (Qlt_bool v1 (1 # 100000)); [reflexivity |].
      apply Qlt_bool_iff in Hs1. rewrite Hs1. reflexivity. }
    rewrite Hw1. apply step_width_bounds.
  - assert (Hg1 : 2 # 10 <= v1) by now apply Qnot_lt_le.
    assert (Hg2 : 2 # 10 <= v2) by lra.
    rewrite (step_width_significant v1 M Hg1), (step_width_significant v2 M Hg2).
    apply clamp_monotone. apply (scale_monotone v1 v2 M HM Hle).
Qed.

Lemma width_never_decreases_with_the_flux_witness :
  exists e1 e2,
    Renderer.edge_step [("Q6R6", 1 # 10); ("Q6Y4", 8)] [8] "Q6R6" = Ok e1 /\
    Renderer.edge_step [("Q6R6", 1 # 10); ("Q6Y4", 8)] [8] "Q6Y4" = Ok e2 /\
    Renderer.penwidth e1 <= Renderer.penwidth e2.
Proof.
  apply (width_never_decreases_with_the_flux
           [("Q6R6", 1 # 10); ("Q6Y4", 8)] "Q6R6" "Q6Y4" (1 # 10) 8 8);
    try reflexivity; unfold Qle; cbn; lia.
Defined.

(** Joining a two-character source code and any destination code and
    splitting the result gives the two codes back. *)
Theorem split_undoes_join (src dst : string) :
  String.length src = 2%nat ->
  split_code (src ++ dst) = (src, dst).
Proof.
  intros Hlen.
  destruct src as [| a [| b [| c src]]]; try discriminate Hlen.
  unfold split_code, slice, slice_from. cbn. destruct dst; reflexivity.
Qed.

Lemma split_undoes_join_witness :
  split_code ("Q6" ++ "Y4") = ("Q6", "Y4").
Proof. apply split_undoes_join. reflexivity. Defined.

(** ** The width under rounding, for every input *)

(** In binary64 and in binary32, whatever the mean flux and the maximum
    are (zero, infinite and NaN included), the clipped width is a number
    between 0.5 and 10; a NaN or an infinite scaled value is drawn with
    width 10, a negative infinite one with width 0.5. *)
Theorem rounded_width_is_always_in_range (value maxwidth : spec_float) :
  (SFleb (IEEE.half 53 1024)
         (IEEE.clip 53 1024 (IEEE.scaled 53 1024 value maxwidth)) = true /\
   SFleb (IEEE.clip 53 1024 (IEEE.scaled 53 1024 value maxwidth))
         (IEEE.ten 53 1024) = true) /\
  (SFleb (IEEE.half 24 128)
         (IEEE.clip 24 128 (IEEE.scaled 24 128 value maxwidth)) = true /\
   SFleb (IEEE.clip 24 128 (IEEE.scaled 24 128 value maxwidth))
         (IEEE.ten 24 128) = true) /\
  (IEEE.clip 53 1024 S754_nan = IEEE.ten 53 1024 /\
   IEEE.clip 53 1024 (S754_infinity false) = IEEE.ten 53 1024 /\
   IEEE.clip 53 1024 (S754_infinity true) = IEEE.half 53 1024) /\
  (IEEE.clip 24 128 S754_nan = IEEE.ten 24 128 /\
   IEEE.clip 24 128 (S754_infinity false) = IEEE.ten 24 128 /\
   IEEE.clip 24 128 (S754_infinity true) = IEEE.half 24 128).
Proof.
  split; [| split; [| split]].
  - destruct (ieee_clip_bounds 53 1024 eq_refl eq_refl eq_refl
                (IEEE.scaled 53 1024 value maxwidth)) as (Hl & Hh & _).
    split; assumption.
  - destruct (ieee_clip_bounds 24 128 eq_refl eq_refl eq_refl
                (IEEE.scaled 24 128 value maxwidth)) as (Hl & Hh & _).
    split; assumption.
  - repeat split; vm_compute; reflexivity.
  - repeat split; vm_compute; reflexivity.
Qed.

(** ** The mean of a return column *)

Lemma select_zip_add (mask : list bool) (a b : list Q) :
  List.length a = List.length b ->
  select mask (zip_add a b) = zip_add (select mask a) (select mask b).
Proof.
  revert a b. induction mask as [| m mask IH]; intros [| u a] [| v b] H; cbn in *;
    try reflexivity; try discriminate.
  destruct m; cbn; [f_equal |]; apply IH; lia.
Qed.

Lemma select_map (f : Q -> Q) (mask : list bool) (a : list Q) :
  select mask (map f a) = map f (select mask a).
Proof.
  revert a. induction mask as [| m mask IH]; intros [| u a]; cbn; try reflexivity.
  destruct m; cbn; [f_equal |]; apply IH.
Qed.

Lemma Qsum_zip_add (a b : list Q) :
  List.length a = List.length b -> Qsum (zip_add a b) == Qsum a + Qsum b.
Proof.
  revert b. induction a as [| u a IH]; intros [| v b] H; try discriminate H.
  - change (0 == 0 + 0). lra.
  - change (zip_add (u :: a) (v :: b)) with ((u + v) :: zip_add a b).
    change (Qsum ((u + v) :: zip_add a b)) with (u + v + Qsum (zip_add a b)).
    change (Qsum (u :: a)) with (u + Qsum a).
    change (Qsum (v :: b)) with (v + Qsum b).
    rewrite IH by (cbn in H; lia). ring.
Qed.

Lemma Qsum_map (f : Q -> Q) (k : Q) (a : list Q) :
  (forall v, f v == k * v) -> Qsum (map f a) == k * Qsum a.
Proof.
  intros Hf. induction a as [| u a IH].
  - change (Qsum (map f [])) with 0. change (Qsum []) with 0. ring.
  - change (Qsum (map f (u :: a))) with (f u + Qsum (map f a)).
    change (Qsum (u :: a)) with (u + Qsum a).
    rewrite IH, Hf. ring.
Qed.

Lemma col_mean_some (c : list Q) (m : Q) :
  col_mean c = Some m ->
  c <> [] /\ m == Qsum c / inject_Z (Z.of_nat (List.length c)).
Proof.
  destruct c as [| v c]; cbn [col_mean]; [discriminate |].
  intros [= <-]. split; [discriminate | reflexivity].
Qed.

Lemma col_mean_defined (c : list Q) :
  c <> [] -> exists m, col_mean c = Some m.
Proof. destruct c; [contradiction | cbn; eauto]. Qed.

Lemma count_nonzero (c : list Q) :
  c <> [] -> ~ inject_Z (Z.of_nat (List.length c)) == 0.
Proof.
  destruct c as [| v c]; [contradiction |]. intros _ H.
  pose proof (count_positive (List.length c)) as Hp. cbn [List.length] in H.
  rewrite H in Hp. lra.
Qed.

Lemma col_mean_zip_add (a b : list Q) (ma mb : Q) :
  List.length a = List.length b ->
  col_mean a = Some ma -> col_mean b = Some mb ->
  exists m, col_mean (zip_add a b) = Some m /\ m == ma + mb.
Proof.
  intros Hl Ha Hb.
  apply col_mean_some in Ha as [Hna Ha]. apply col_mean_some in Hb as [_ Hb].
  assert (Hnz : zip_add a b <> []).
  { destruct a, b; try discriminate; congruence. }
  destruct (col_mean_defined _ Hnz) as [m Hm]. exists m. split; [exact Hm |].
  apply col_mean_some in Hm as [_ Hm].
  rewrite Hm, Ha, Hb, Qsum_zip_add, zip_add_length by exact Hl.
  rewrite <- Hl. pose proof (count_nonzero a Hna). field. assumption.
Qed.

Lemma col_mean_map (f : Q -> Q) (k : Q) (a : list Q) (ma : Q) :
  (forall v, f v == k * v) ->
  col_mean a = Some ma ->
  exists m, col_mean (map f a) = Some m /\ m == k * ma.
Proof.
  intros Hf Ha. apply col_mean_some in Ha as [Hna Ha].
  assert (Hnz : map f a <> []) by (destruct a; [contradiction | discriminate]).
  destruct (col_mean_defined _ Hnz) as [m Hm]. exists m. split; [exact Hm |].
  apply col_mean_some in Hm as [_ Hm].
  rewrite Hm, Ha, (Qsum_map f k a Hf), length_map.
  pose proof (count_nonzero a Hna). field. assumption.
Qed.

Lemma deposit_feeder_column (xd : Dataset) (df : DataFrame) :
  build_detailed xd = Ok df ->
  exists raw q6 h1 h2 y4,
    xd_var xd "Y2_fYQPc" = Ok raw /\
    df_col df "Q6Y2" = Ok q6 /\ df_col df "H1Y2" = Ok h1 /\
    df_col df "H2Y2" = Ok h2 /\ df_col df "Y4Y2" = Ok y4 /\
    List.length raw = List.length q6 /\ List.length h1 = List.length q6 /\
    List.length h2 = List.length q6 /\ List.length y4 = List.length q6 /\
    index df = time xd /\
    df_col df "Y2Q6"
    = Ok (zip_add (zip_add raw (map (fun v => v * (8 # 10)) q6))
                  (map (fun v => (35 # 100) * v) (zip_add (zip_add h1 h2) y4))).
Proof.
  intros H.
  pose proof (build_shape "Y2_fYG3c" detailed_flux_cells xd df
                (codes_distinct detailed_flux_cells eq_refl) H) as (_ & Hidx & _).
  unfold build_detailed in H. apply bind_ok in H as (df0 & _ & H).
  change detailed_flux_cells
    with ((deposition ++ bacteria ++ deposit_feeder_prey)
          ++ [deposit_feeder_return] ++ fauna_rest)%list in H.
  rewrite run_app in H. apply bind_ok in H as (df1 & _ & H).
  rewrite run_app in H. apply bind_ok in H as (df2 & H2 & H).
  cbn [run] in H2. apply bind_ok in H2 as (df2' & H2 & Heq). injection Heq as ->.
  apply deposit_feeder_return_exec in H2
    as (raw & q6 & h1 & h2 & y4 & Hraw & Hq6 & Hh1 & Hh2 & Hy4
        & L1 & L2 & L3 & L4 & _ & Hset).
  apply df_set_ok in Hset as (_ & _ & Hy & Hother).
  pose proof (run_frame xd fauna_rest "Y2Q6" eq_refl _ _ H) as [_ Hc0].
  pose proof (run_frame xd fauna_rest "Q6Y2" eq_refl _ _ H) as [_ Hc1].
  pose proof (run_frame xd fauna_rest "H1Y2" eq_refl _ _ H) as [_ Hc2].
  pose proof (run_frame xd fauna_rest "H2Y2" eq_refl _ _ H) as [_ Hc3].
  pose proof (run_frame xd fauna_rest "Y4Y2" eq_refl _ _ H) as [_ Hc4].
  rewrite Hother in Hc1, Hc2, Hc3, Hc4 by discriminate.
  exists raw, q6, h1, h2, y4.
  repeat (split; [congruence |]). congruence.
Qed.

Lemma mean_of_filtered (y : Z) (df : DataFrame) (dfm : Series) (k : string)
      (c : list Q) :
  frame_mean (filter_year y df) = Some dfm ->
  df_col df k = Ok c ->
  exists m, col_mean (select (year_mask y (index df)) c) = Some m /\
            series_get dfm k = Ok m.
Proof.
  unfold frame_mean, df_col. intros Hm Hc.
  destruct (means_get _ _ k Hm) as [_ Hg].
  unfold filter_year in Hg. cbn [columns] in Hg.
  rewrite lookup_map_columns in Hg.
  destruct (lookup k (columns df)) as [c' |]; [| discriminate].
  injection Hc as ->. exact Hg.
Qed.

(** In exact arithmetic the annual mean of the deposit feeder's return
    column is the return formula applied to annual means: the mean of Y2Q6 over the rows of the
    target year equals the mean of Y2_fYQPc over those rows
    + 0.8 * mean(Q6Y2) + 0.35 * (mean(H1Y2) + mean(H2Y2) + mean(Y4Y2)). *)
Theorem mean_of_the_deposit_feeder_return (xd : Dataset) (df : DataFrame) (y : Z)
        (dfm : Series) :
  build_detailed xd = Ok df ->
  frame_mean (filter_year y df) = Some dfm ->
  exists raw mraw my mq mh1 mh2 my4,
    xd_var xd "Y2_fYQPc" = Ok raw /\
    col_mean (select (year_mask y (time xd)) raw) = Some mraw /\
    series_get dfm "Y2Q6" = Ok my /\ series_get dfm "Q6Y2" = Ok mq /\
    series_get dfm "H1Y2" = Ok mh1 /\ series_get dfm "H2Y2" = Ok mh2 /\
    series_get dfm "Y4Y2" = Ok my4 /\
    my == mraw + (8 # 10) * mq + (35 # 100) * (mh1 + mh2 + my4).
Proof.
  intros Hb Hm.
  destruct (deposit_feeder_column xd df Hb)
    as (raw & q6 & h1 & h2 & y4 & Hraw & Hq6 & Hh1 & Hh2 & Hy4
        & L1 & L2 & L3 & L4 & Hidx & Hy).
  destruct (mean_of_filtered y df dfm _ _ Hm Hq6) as (mq & Cq & Gq).
  destruct (mean_of_filtered y df dfm _ _ Hm Hh1) as (mh1 & Ch1 & Gh1).
  destruct (mean_of_filtered y df dfm _ _ Hm Hh2) as (mh2 & Ch2 & Gh2).
  destruct (mean_of_filtered y df dfm _ _ Hm Hy4) as (my4 & Cy4 & Gy4).
  destruct (mean_of_filtered y df dfm _ _ Hm Hy) as (my & Cy & Gy).
  rewrite Hidx in *.
  set (mask := year_mask y (time xd)) in *.
  assert (S1 : List.length (select mask raw) = List.length (select mask q6))
    by (apply select_length_eq; exact L1).
  assert (S2 : List.length (select mask h1) = List.length (select mask q6))
    by (apply select_length_eq; exact L2).
  assert (S3 : List.length (select mask h2) = List.length (select mask q6))
    by (apply select_length_eq; exact L3).
  assert (S4 : List.length (select mask y4) = List.length (select mask q6))
    by (apply select_length_eq; exact L4).
  assert (Hrawne : select mask raw <> []).
  { apply col_mean_some in Cq as [Hne _]. intros E. rewrite E in S1.
    destruct (select mask q6); [contradiction | discriminate]. }
  destruct (col_mean_defined _ Hrawne) as [mraw Craw].
  assert (T1 : List.length raw = List.length (map (fun v => v * (8 # 10)) q6))
    by (rewrite length_map; exact L1).
  assert (T2 : List.length h1 = List.length h2) by congruence.
  assert (T3 : List.length (zip_add h1 h2) = List.length y4)
    by (rewrite zip_add_length; congruence).
  assert (T4 : List.length (zip_add raw (map (fun v => v * (8 # 10)) q6))
               = List.length (map (fun v => (35 # 100) * v) (zip_add (zip_add h1 h2) y4))).
  { rewrite zip_add_length by exact T1. rewrite length_map.
    rewrite zip_add_length by exact T3. rewrite zip_add_length by exact T2.
    congruence. }
  rewrite (select_zip_add mask _ _ T4) in Cy.
  rewrite (select_zip_add mask _ _ T1) in Cy.
  rewrite !select_map in Cy.
  rewrite (select_zip_add mask _ _ T3) in Cy.
  rewrite (select_zip_add mask _ _ T2) in Cy.
  destruct (col_mean_map (fun v => v * (8 # 10)) (8 # 10) (select mask q6) mq)
    as (m1 & C1 & E1);
    [intros v; ring | exact Cq |].
  destruct (col_mean_zip_add (select mask raw)
              (map (fun v => v * (8 # 10)) (select mask q6)) mraw m1)
    as (m2 & C2 & E2);
    [rewrite length_map; exact S1 | exact Craw | exact C1 |].
  destruct (col_mean_zip_add (select mask h1) (select mask h2) mh1 mh2)
    as (m3 & C3 & E3);
    [congruence | exact Ch1 | exact Ch2 |].
  destruct (col_mean_zip_add (zip_add (select mask h1) (select mask h2))
              (select mask y4) m3 my4) as (m4 & C4 & E4);
    [rewrite zip_add_length; congruence | exact C3 | exact Cy4 |].
  destruct (col_mean_map (fun v => (35 # 100) * v) (35 # 100)
              (zip_add (zip_add (select mask h1) (select mask h2)) (select mask y4)) m4)
    as (m5 & C5 & E5);
    [intros v; ring | exact C4 |].
  destruct (col_mean_zip_add
              (zip_add (select mask raw) (map (fun v => v * (8 # 10)) (select mask q6)))
              (map (fun v => (35 # 100) * v)
                   (zip_add (zip_add (select mask h1) (select mask h2)) (select mask y4)))
              m2 m5) as (m6 & C6 & E6);
    [| exact C2 | exact C5 |].
  { rewrite zip_add_length by (rewrite length_map; exact S1).
    rewrite length_map.
    rewrite zip_add_length by (rewrite zip_add_length; congruence).
    rewrite zip_add_length by congruence. congruence. }
  rewrite C6 in Cy. injection Cy as <-.
  exists raw, mraw, m6, mq, mh1, mh2, my4.
  repeat (split; [assumption |]).
  rewrite E6, E2, E1, E5, E4, E3. ring.
Qed.

Lemma mean_of_the_deposit_feeder_return_witness :
  exists df dfm my,
    build_detailed sample_dataset = Ok df /\
    frame_mean (filter_year 2016 df) = Some dfm /\
    series_get dfm "Y2Q6" = Ok my.
Proof.
  assert (Hrun : exists df, build_detailed sample_dataset = Ok df)
    by (eexists; vm_compute; reflexivity).
  destruct Hrun as [df Hrun].
  assert (Hmean : exists dfm, frame_mean (filter_year 2016 df) = Some dfm).
  { revert Hrun. vm_compute. intros [= <-]. eexists. reflexivity. }
  destruct Hmean as [dfm Hmean].
  destruct (mean_of_the_deposit_feeder_return sample_dataset df 2016 dfm Hrun Hmean)
    as (raw & mraw & my & mq & mh1 & mh2 & my4 & _ & _ & Hy & _).
  exists df, dfm, my. repeat split; assumption.
Defined.

(** ** Signs *)




(** ** Edge codes of another length *)





